(** * search-person-v2.py: the asynchronous person-search scraper

    A shallow embedding of
    [Data-playground/Prototypes/Scrapping and web/search-person-v2.py]
    and the properties of its retrieval engine: query validation, URL
    construction, the robots.txt cache, the retrying fetcher, record
    extraction and CSV sanitization.

    Python values are modelled as follows.
    - [str] is a sequence of Unicode code points ([list N]), so that
      [len], slicing and [strip] count code points as Python does.
    - [int] is [Z]; [float] durations are idealised as rationals ([Q]).
    - A [dict] used as a map is a [gmap]; a [dict] whose insertion order
      is observable (a scraped item) is an association list.
    - Exceptions are values of [exn]; the network, the clock and the
      random generator are an explicit [World] oracle, and everything the
      program does to the outside is appended to a trace of [Event]s.
    - A library call is modelled where it returns.  The calls the
      script runs under a handler or a [with] block may raise: a
      request and the reading of its body ([HttpResult]),
      [RobotFileParser.parse] ([RobotsLib]), and the calls to the file
      system ([OS]). *)

From Stdlib Require Import ZArith NArith QArith List String Ascii Lia Lqa.
From stdpp Require Import base option list gmap.

Local Open Scope N_scope.

(** ** Python strings *)

Abbreviation str := (list N).

(** An ASCII literal as a Python [str]. *)
Definition py (s : string) : str :=
  List.map N_of_ascii (list_ascii_of_string s).

Module Py.

(** [Py_UNICODE_ISSPACE]: the characters [str.strip()], [str.isspace()]
    and the regular expression class [\s] treat as whitespace. *)
Definition isspace (c : N) : bool :=
  ((0x09 <=? c) && (c <=? 0x0D)) || ((0x1C <=? c) && (c <=? 0x20))
  || (c =? 0x85) || (c =? 0xA0) || (c =? 0x1680)
  || ((0x2000 <=? c) && (c <=? 0x200A))
  || (c =? 0x2028) || (c =? 0x2029) || (c =? 0x202F) || (c =? 0x205F)
  || (c =? 0x3000).

Fixpoint lstrip (s : str) : str :=
  match s with
  | c :: s' => if isspace c then lstrip s' else s
  | [] => []
  end.

Definition rstrip (s : str) : str := rev (lstrip (rev s)).

(** [s.strip()] *)
Definition strip (s : str) : str := rstrip (lstrip s).

(** [s.startswith(p)] *)
Fixpoint startswith (s p : str) : bool :=
  match p, s with
  | [], _ => true
  | a :: p', b :: s' => (a =? b) && startswith s' p'
  | _ :: _, [] => false
  end.

(** [s.endswith(p)] *)
Definition endswith (s p : str) : bool := startswith (rev s) (rev p).

(** [p in s] *)
Fixpoint contains (p s : str) : bool :=
  startswith s p ||
  match s with
  | [] => false
  | _ :: s' => contains p s'
  end.

(** [s.replace(old, new)] for a non-empty [old]: the occurrences of
    [old] are replaced from left to right, without overlap.  [skip]
    counts the characters of a matched occurrence still to be dropped. *)
Fixpoint replace_from (old new : str) (skip : nat) (s : str) : str :=
  match s with
  | [] => []
  | c :: s' =>
      match skip with
      | S k => replace_from old new k s'
      | O =>
          if startswith s old
          then new ++ replace_from old new (Nat.pred (length old)) s'
          else c :: replace_from old new O s'
      end
  end.

Definition replace (s old new : str) : str := replace_from old new O s.

(** [s[:n]] *)
Definition slice_to (n : nat) (s : str) : str := take n s.

(** [re.sub(r"\s+", " ", s)]: every maximal run of whitespace becomes
    one space.  [in_run] tells that the previous character was
    whitespace. *)
Fixpoint collapse_ws (in_run : bool) (s : str) : str :=
  match s with
  | [] => []
  | c :: s' =>
      if isspace c
      then (if in_run then collapse_ws true s' else 0x20 :: collapse_ws true s')
      else c :: collapse_ws false s'
  end.

End Py.

(** ** urllib.parse *)

Module Urllib.

(** [str.encode("utf-8", "strict")] of one code point.  A lone
    surrogate raises [UnicodeEncodeError] ([None]); values above
    [0x10FFFF] are not Python characters. *)
Definition utf8 (c : N) : option (list N) :=
  if c <? 0x80 then Some [c]
  else if c <? 0x800 then
    Some [N.lor 0xC0 (N.shiftr c 6); N.lor 0x80 (N.land c 0x3F)]
  else if (0xD800 <=? c) && (c <=? 0xDFFF) then None
  else if c <? 0x10000 then
    Some [N.lor 0xE0 (N.shiftr c 12);
          N.lor 0x80 (N.land (N.shiftr c 6) 0x3F);
          N.lor 0x80 (N.land c 0x3F)]
  else if c <? 0x110000 then
    Some [N.lor 0xF0 (N.shiftr c 18);
          N.lor 0x80 (N.land (N.shiftr c 12) 0x3F);
          N.lor 0x80 (N.land (N.shiftr c 6) 0x3F);
          N.lor 0x80 (N.land c 0x3F)]
  else None.

Fixpoint encode_utf8 (s : str) : option (list N) :=
  match s with
  | [] => Some []
  | c :: s' =>
      match utf8 c, encode_utf8 s' with
      | Some bs, Some rest => Some (bs ++ rest)
      | _, _ => None
      end
  end.

(** [_ALWAYS_SAFE]: ASCII letters, digits and [_.-~]. *)
Definition always_safe (b : N) : bool :=
  ((0x41 <=? b) && (b <=? 0x5A)) || ((0x61 <=? b) && (b <=? 0x7A))
  || ((0x30 <=? b) && (b <=? 0x39))
  || (b =? 0x5F) || (b =? 0x2E) || (b =? 0x2D) || (b =? 0x7E).

Definition hex_digit (n : N) : N := if n <? 10 then 0x30 + n else 0x37 + n.

(** ['%{:02X}'.format(b)] *)
Definition percent (b : N) : str :=
  [0x25; hex_digit (N.shiftr b 4); hex_digit (N.land b 0xF)].

(** One byte of [quote_plus(s)]: [quote] with the space kept safe,
    then every space replaced by [+]. *)
Definition quote_plus_byte (b : N) : str :=
  if b =? 0x20 then [0x2B]
  else if always_safe b then [b]
  else percent b.

(** [quote_plus(s)] with the default [safe=''], UTF-8, strict. *)
Definition quote_plus (s : str) : option str :=
  match encode_utf8 s with
  | Some bs => Some (concat (List.map quote_plus_byte bs))
  | None => None
  end.

(** [urlencode({'q': v})] *)
Definition urlencode_q (v : str) : option str :=
  match quote_plus v with
  | Some e => Some (py "q=" ++ e)
  | None => None
  end.

(** [urlunparse] of [scheme], [netloc] and the path [/robots.txt], for a
    non-empty [scheme] and [netloc]. *)
Definition urlunparse_robots (scheme netloc : str) : str :=
  scheme ++ py "://" ++ netloc ++ py "/robots.txt".

End Urllib.

(** ** Exceptions and results *)

Inductive exn : Type :=
| ValueError
| UnicodeEncodeError
| IndexError
| AssertionError
| OSError.

(** The result of running a piece of the program: it returns, it raises,
    or it waits for ever on the semaphore. *)
Inductive outcome (A : Type) : Type :=
| Ret (a : A)
| Raise (e : exn)
| Hang.
Arguments Ret {A} a.
Arguments Raise {A} e.
Arguments Hang {A}.

(** ** Configuration and constants *)

Definition DEFAULT_UA : str := Eval cbv in
  py "Mozilla/5.0 (X11; Linux x86_64) AppleWebKit/537.36 (KHTML, like Gecko) Chrome/124.0.0.0 Safari/537.36".

(** [('+', '-', '=', '@', '\t')] *)
Definition SAFE_CSV_PREFIXES : list N := [0x2B; 0x2D; 0x3D; 0x40; 0x09].

Record Target : Type := {
  name : str;
  url_template : str;
  item_selector : str;
  fields : list (str * str)   (* field name -> selector, in dict order *)
}.

Record ScraperConfig : Type := {
  concurrency : Z;
  connect_timeout_s : Q;
  read_timeout_s : Q;
  total_timeout_s : Q;
  max_retries : Z;
  backoff_base : Q;
  user_agents : list str;
  obey_robots : bool;
  rate_delay_s : Q;
  output_csv : option str;
  output_sqlite : option str;
  normalize_whitespace : bool;
  busqueda_intensiva : bool;
  busqueda_intesiva : option bool
}.

(** ** Utilities *)

(** The class [[\x00-\x1f\x7f]] of [sanitize_query]. *)
Definition is_control (c : N) : bool := (c <=? 0x1F) || (c =? 0x7F).

Definition sanitize_query (q : option str) : outcome str :=
  match q with
  | None => Raise ValueError
  | Some q =>
      let q := Py.strip q in
      match q with
      | [] => Raise ValueError
      | _ =>
          let q := if (200 <? length q)%nat then Py.slice_to 200 q else q in
          Ret (List.map (fun c => if is_control c then 0x20 else c) q)
      end
  end.

Definition csv_safe (text : str) : str :=
  match text with
  | [] => text
  | c :: _ =>
      if existsb (N.eqb c) SAFE_CSV_PREFIXES then 0x27 :: text else text
  end.

Definition build_url (template query : str) : outcome str :=
  if negb (Py.contains (py "{query}") template) then Raise ValueError
  else
    match Urllib.urlencode_q query with
    | None => Raise UnicodeEncodeError
    | Some encoded =>
        if Py.contains (py "q={") template
        then Ret (Py.replace template (py "{query}") query)
        else
          let base := Py.replace template (py "{query}") [] in
          if Py.contains (py "?") base then
            if Py.endswith base (py "?") || Py.endswith base (py "&")
            then Ret (base ++ encoded)
            else Ret (base ++ py "&" ++ encoded)
          else Ret (base ++ py "?" ++ encoded)
    end.

(** [sleep_backoff]: the delay handed to [asyncio.sleep], for the value
    [r] that [random.random()] returned. *)
Definition backoff_delay (attempt : Z) (base r : Q) : Q :=
  ((base * inject_Z (2 ^ (attempt - 1))) * ((7 # 10) + r * (6 # 10)))%Q.

(** ** External libraries

    The libraries the script calls are interfaces here; the theorems hold
    for every implementation of them. *)

(** [urllib.parse.urlparse(url)]: the [(scheme, netloc)] components. *)
Class UrlParse : Type := {
  urlparse : str -> str * str
}.

(** [urllib.robotparser] and [str.splitlines].  A parser is an object
    that [parse] changes in place: the call may raise part-way through
    the lines, and what it had taken in by then stays in the parser. *)
Class RobotsLib : Type := {
  RobotFileParser : Type;
  (** [RobotFileParser()] *)
  rp_new : RobotFileParser;
  (** [rp.parse(lines)]: the parser after the call, and the exception
      the call raised, if any *)
  rp_parse : RobotFileParser -> list str -> RobotFileParser * option exn;
  (** [rp.can_fetch(ua, url)] *)
  rp_can_fetch : RobotFileParser -> str -> str -> bool;
  splitlines : str -> list str;
  (** [rp.parse([])] has no line to fail on. *)
  rp_parse_nil : forall rp, snd (rp_parse rp []) = None
}.

(** BeautifulSoup with [html.parser]. *)
Class SoupLib : Type := {
  Tag : Type;
  (** [BeautifulSoup(html, "html.parser").select(selector)] *)
  soup_select : str -> str -> list Tag;
  (** [node.select_one(selector)] *)
  select_one : Tag -> str -> option Tag;
  (** [node.find(name)] *)
  soup_find : Tag -> str -> option Tag;
  (** [tag[attr]] when [tag.has_attr(attr)] *)
  get_attr : Tag -> str -> option str;
  (** [tag.get_text(strip=True)] *)
  get_text_strip : Tag -> str
}.

(** ** The outside world *)

(** What a failed [await] inside the [try] of [fetch] raised. *)
Inductive Failure : Type :=
| Timeout                          (* asyncio.TimeoutError *)
| ClientResponseError (status : Z) (* aiohttp.ClientResponseError *)
| ClientError                      (* any other aiohttp.ClientError *)
| OtherError.                      (* any other Exception *)

(** The answer to one [session.get]: the request raises, or a response
    arrives with its status, content type and body; reading the body
    ([await resp.text(...)]) may raise in turn. *)
Inductive HttpResult : Type :=
| HttpFailed (f : Failure)
| HttpResponse (status : Z) (content_type : str) (body : Failure + str).

Record World : Type := {
  (** the answer to the [k]-th request of the run, sent to [url] *)
  http : nat -> str -> HttpResult;
  (** the [k]-th draw, as [random.random()] returns it *)
  random_random : nat -> Q;
  (** the [k]-th draw, as the index [random.choice] picks *)
  random_index : nat -> nat
}.

Inductive LogRecord : Type :=
| LogRobotsBlocked (url : str)
| LogTimeout (read_timeout : Q) (url : str) (attempt : Z)
| LogHttp (status : Z) (url : str) (attempt : Z)
| LogClientError (url : str) (attempt : Z)
| LogUnexpected (url : str).

(** A scraped item: [{"source": ..., field: value, ...}] in insertion order. *)
Abbreviation Item := (list (str * str)).

Inductive Event : Type :=
| EvRobotsGet (url : str) (timeout_total : Q)
    (* session.get(robots_url, timeout=ClientTimeout(total=5)) *)
| EvGet (url ua : str)        (* session.get(url, allow_redirects=True) *)
| EvRateDelay (delay : Q)     (* asyncio.sleep(rate_delay_s) *)
| EvBackoff (delay : Q)       (* asyncio.sleep(delay) in sleep_backoff *)
| EvAcquire                   (* entering  async with self.sem *)
| EvRelease                   (* leaving   async with self.sem *)
| EvLog (r : LogRecord)
| EvYield (item : Item).      (* search hands an item to its consumer *)

Section Scraper.

Context {url_lib : UrlParse} {robots_lib : RobotsLib} {soup_lib : SoupLib}.

(** The mutable part of a run: the scraper's robots cache, session and
    semaphore, the position in the oracle, and what happened so far. *)
Record State : Type := {
  robots_cache : gmap str RobotFileParser;   (* self.robots._cache *)
  session : option str;   (* self.session; when open, its User-Agent header *)
  sem : Z;                (* free slots of self.sem *)
  n_requests : nat;
  n_draws : nat;
  trace : list Event
}.

Definition initial_state : State :=
  {| robots_cache := ∅; session := None; sem := 0;
     n_requests := O; n_draws := O; trace := [] |}.

(** The immutable part of a [PersonScraper]. *)
Record PersonScraper : Type := {
  cfg : ScraperConfig;
  targets : list Target
}.

(** *** The effect monad *)

Definition M (A : Type) : Type := State -> outcome A * State.

Definition ret {A} (a : A) : M A := fun st => (Ret a, st).

Definition bind {A B} (m : M A) (k : A -> M B) : M B :=
  fun st =>
    match m st with
    | (Ret a, st') => k a st'
    | (Raise e, st') => (Raise e, st')
    | (Hang, st') => (Hang, st')
    end.

Definition lift {A} (o : outcome A) : M A := fun st => (o, st).

Definition emit (e : Event) : M unit :=
  fun st =>
    (Ret tt,
     {| robots_cache := robots_cache st; session := session st; sem := sem st;
        n_requests := n_requests st; n_draws := n_draws st;
        trace := trace st ++ [e] |}).

Notation "x <- m ;; k" := (bind m (fun x => k))
  (at level 100, m at next level, right associativity).
Notation "m ;;; k" := (bind m (fun _ => k))
  (at level 100, right associativity).

Definition when (b : bool) (m : M unit) : M unit := if b then m else ret tt.

(** [for x in xs: body(x)] *)
Fixpoint for_each {A} (xs : list A) (body : A -> M unit) : M unit :=
  match xs with
  | [] => ret tt
  | x :: xs' => body x ;;; for_each xs' body
  end.

(** [range(lo, hi)] *)
Definition py_range (lo hi : Z) : list Z :=
  List.map (fun i => (lo + Z.of_nat i)%Z) (seq 0 (Z.to_nat (hi - lo))).

(** *** Primitive effects *)

Section WithWorld.

Variable w : World.

(** One request through the session; [ev] is the event it leaves. *)
Definition request (url : str) (ev : Event) : M HttpResult :=
  fun st =>
    (Ret (http w (n_requests st) url),
     {| robots_cache := robots_cache st; session := session st; sem := sem st;
        n_requests := S (n_requests st); n_draws := n_draws st;
        trace := trace st ++ [ev] |}).

Definition draw {A} (f : nat -> A) : M A :=
  fun st =>
    (Ret (f (n_draws st)),
     {| robots_cache := robots_cache st; session := session st; sem := sem st;
        n_requests := n_requests st; n_draws := S (n_draws st);
        trace := trace st |}).

(** [random.choice(xs)] *)
Definition random_choice (xs : list str) : M str :=
  match xs with
  | [] => lift (Raise IndexError)
  | x :: _ => i <- draw (random_index w) ;; ret (nth (i mod length xs) xs x)
  end.

(** [x or DEFAULT_UA] *)
Definition or_default (x : str) : str :=
  match x with [] => DEFAULT_UA | _ => x end.

Definition set_session (s : option str) : M unit :=
  fun st =>
    (Ret tt,
     {| robots_cache := robots_cache st; session := s; sem := sem st;
        n_requests := n_requests st; n_draws := n_draws st;
        trace := trace st |}).

Definition set_sem (v : Z) : M unit :=
  fun st =>
    (Ret tt,
     {| robots_cache := robots_cache st; session := session st; sem := v;
        n_requests := n_requests st; n_draws := n_draws st;
        trace := trace st |}).

Definition cache_store (key : str) (rp : RobotFileParser) : M unit :=
  fun st =>
    (Ret tt,
     {| robots_cache := <[key := rp]> (robots_cache st);
        session := session st; sem := sem st;
        n_requests := n_requests st; n_draws := n_draws st;
        trace := trace st |}).

Definition get_state : M State := fun st => (Ret st, st).

(** [async with self.sem]: entering waits for a free slot. *)
Definition acquire : M unit :=
  st <- get_state ;;
  if (0 <? sem st)%Z then set_sem (sem st - 1) ;;; emit EvAcquire
  else lift Hang.

Definition release : M unit :=
  st <- get_state ;;
  set_sem (sem st + 1) ;;; emit EvRelease.

(** [assert self.session is not None], giving the User-Agent header. *)
Definition session_ua : M str :=
  st <- get_state ;;
  match session st with
  | Some ua => ret ua
  | None => lift (Raise AssertionError)
  end.

(** [sleep_backoff(attempt, base)] *)
Definition sleep_backoff (attempt : Z) (base : Q) : M unit :=
  r <- draw (random_random w) ;;
  emit (EvBackoff (backoff_delay attempt base r)).

(** *** RobotsCache *)

Definition robots_key (scheme netloc : str) : str :=
  scheme ++ py "://" ++ netloc.

(** The parser [allowed] caches for an answer to its request.  The
    parser is created before the [try]; when [rp.parse] raises on the
    lines of the document, the handler calls [rp.parse([])] on that
    same parser, as it does on a fresh one when the request failed or
    the body could not be read. *)
Definition robots_parser (r : HttpResult) : RobotFileParser :=
  match r with
  | HttpResponse 200 _ (inr text) =>
      match rp_parse rp_new (splitlines text) with
      | (rp, None) => rp
      | (rp, Some _) => fst (rp_parse rp [])
      end
  | _ => fst (rp_parse rp_new [])
  end.

Definition ROBOTS_TIMEOUT : Q := 5.

Definition allowed (url ua : str) : M bool :=
  let '(scheme, netloc) := urlparse url in
  match scheme, netloc with
  | [], _ | _, [] => ret true
  | _, _ =>
      let key := robots_key scheme netloc in
      st <- get_state ;;
      rp <- match robots_cache st !! key with
            | Some rp => ret rp
            | None =>
                let robots_url := Urllib.urlunparse_robots scheme netloc in
                r <- request robots_url (EvRobotsGet robots_url ROBOTS_TIMEOUT) ;;
                let rp := robots_parser r in
                cache_store key rp ;;; ret rp
            end ;;
      ret (rp_can_fetch rp ua url)
  end.

(** [allowed] as the coroutine it is.  It runs without interruption
    up to [session.get], where it is suspended until the response of
    its request (the [k]-th of the run) arrives; other tasks of the
    event loop may run in between. *)
Inductive Task : Type :=
| Pending (url ua : str)
| Awaiting (url ua key robots_url : str) (k : nat)
| Finished (result : bool).

Definition step (t : Task) (st : State) : Task * State :=
  match t with
  | Pending url ua =>
      let '(scheme, netloc) := urlparse url in
      match scheme, netloc with
      | [], _ | _, [] => (Finished true, st)
      | _, _ =>
          let key := robots_key scheme netloc in
          match robots_cache st !! key with
          | Some rp => (Finished (rp_can_fetch rp ua url), st)
          | None =>
              let robots_url := Urllib.urlunparse_robots scheme netloc in
              (Awaiting url ua key robots_url (n_requests st),
               snd (request robots_url (EvRobotsGet robots_url ROBOTS_TIMEOUT) st))
          end
      end
  | Awaiting url ua key robots_url k =>
      let rp := robots_parser (http w k robots_url) in
      (Finished (rp_can_fetch rp ua url), snd (cache_store key rp st))
  | Finished b => (Finished b, st)
  end.

(** The event loop resumes the tasks in the order of [schedule]. *)
Fixpoint run_schedule (schedule : list nat) (tasks : list Task) (st : State)
  : list Task * State :=
  match schedule with
  | [] => (tasks, st)
  | i :: schedule' =>
      match tasks !! i with
      | Some t =>
          let '(t', st') := step t st in
          run_schedule schedule' (<[i := t']> tasks) st'
      | None => run_schedule schedule' tasks st
      end
  end.

(** Callers one after the other, as [search] makes them. *)
Fixpoint allowed_in_turn (calls : list (str * str)) : M (list bool) :=
  match calls with
  | [] => ret []
  | (url, ua) :: calls' =>
      b <- allowed url ua ;;
      bs <- allowed_in_turn calls' ;;
      ret (b :: bs)
  end.

(** *** PersonScraper *)

(** [__init__]: maps the misspelt alias, then builds the semaphore
    ([asyncio.Semaphore] refuses a negative value) and the cache. *)
Definition map_alias (config : ScraperConfig) : ScraperConfig :=
  match busqueda_intesiva config with
  | Some true =>
      {| concurrency := concurrency config;
         connect_timeout_s := connect_timeout_s config;
         read_timeout_s := read_timeout_s config;
         total_timeout_s := total_timeout_s config;
         max_retries := max_retries config;
         backoff_base := backoff_base config;
         user_agents := user_agents config;
         obey_robots := obey_robots config;
         rate_delay_s := rate_delay_s config;
         output_csv := output_csv config;
         output_sqlite := output_sqlite config;
         normalize_whitespace := normalize_whitespace config;
         busqueda_intensiva := true;
         busqueda_intesiva := busqueda_intesiva config |}
  | _ => config
  end.

Definition PersonScraper_init (config : ScraperConfig) (tgts : list Target)
  : M PersonScraper :=
  let config := map_alias config in
  if (concurrency config <? 0)%Z then lift (Raise ValueError)
  else
    fun st =>
      (Ret {| cfg := config; targets := tgts |},
       {| robots_cache := ∅; session := None; sem := concurrency config;
          n_requests := n_requests st; n_draws := n_draws st;
          trace := trace st |}).

(** [__aenter__] *)
Definition aenter (self : PersonScraper) : M unit :=
  ua <- random_choice (user_agents (cfg self)) ;;
  set_session (Some (or_default ua)).

(** [__aexit__] *)
Definition aexit : M unit := set_session None.

Definition retryable (status : Z) : bool :=
  existsb (Z.eqb status) [429; 500; 502; 503; 504]%Z.

Definition log_failure (self : PersonScraper) (f : Failure) (url : str)
    (attempt : Z) : M unit :=
  match f with
  | Timeout => emit (EvLog (LogTimeout (read_timeout_s (cfg self)) url attempt))
  | ClientResponseError status => emit (EvLog (LogHttp status url attempt))
  | ClientError => emit (EvLog (LogClientError url attempt))
  | OtherError => emit (EvLog (LogUnexpected url))
  end.

(** [self.session.headers.get("User-Agent", DEFAULT_UA)] *)
Definition header_ua (st : State) : str :=
  match session st with
  | Some ua => ua
  | None => DEFAULT_UA
  end.

Definition nonempty (s : str) : bool :=
  match s with [] => false | _ :: _ => true end.

(** The [for attempt in range(...)] loop of [fetch], one iteration
    after the other; the empty list is the [return None] after the
    loop.  An exception raised inside the [try] is logged by its
    handler before the [async with] block releases the semaphore. *)
Fixpoint fetch_attempts (self : PersonScraper) (url : str) (attempts : list Z)
  : M (option str) :=
  match attempts with
  | [] => ret None
  | attempt :: rest =>
      let next :=
        when (attempt <? max_retries (cfg self))%Z
             (sleep_backoff attempt (backoff_base (cfg self))) ;;;
        fetch_attempts self url rest in
      acquire ;;;
      when (negb (Qeq_bool (rate_delay_s (cfg self)) 0))
           (emit (EvRateDelay (rate_delay_s (cfg self)))) ;;;
      st <- get_state ;;
      r <- request url (EvGet url (header_ua st)) ;;
      match r with
      | HttpFailed f => log_failure self f url attempt ;;; release ;;; next
      | HttpResponse status content_type body =>
          if retryable status
          then emit (EvLog (LogHttp status url attempt)) ;;; release ;;; next
          else if nonempty content_type
                  && negb (Py.contains (py "text/html") content_type)
          then release ;;; ret None
          else
            match body with
            | inr html => release ;;; ret (Some html)
            | inl f => log_failure self f url attempt ;;; release ;;; next
            end
      end
  end.

Definition fetch (self : PersonScraper) (url : str) : M (option str) :=
  ua <- session_ua ;;
  blocked <-
    (if obey_robots (cfg self)
     then
       ok <- allowed url ua ;;
       if negb ok then emit (EvLog (LogRobotsBlocked url)) ;;; ret true
       else ret false
     else ret false) ;;
  if (blocked : bool) then ret None
  else fetch_attempts self url (py_range 1 (max_retries (cfg self) + 1)).

(** *** Record extraction *)

(** The node a selector resolves to: the [if]/[elif] chain of
    [selector_find], [None] for an empty selector or no match. *)
Definition selector_node (node : Tag) (selector : str) : option Tag :=
  match selector with
  | [] => None
  | c :: _ =>
      if c =? 0x2E then select_one node selector          (* '.' *)
      else if c =? 0x23 then select_one node selector     (* '#' *)
      else if Py.contains (py "[") selector && Py.contains (py "]") selector
      then select_one node selector
      else soup_find node selector
  end.

Definition selector_find (node : Tag) (selector : str) : option str :=
  match selector_node node selector with
  | None => None
  | Some found =>
      match get_attr found (py "href") with
      | Some v => Some v
      | None =>
          match get_attr found (py "src") with
          | Some v => Some v
          | None => Some (get_text_strip found)
          end
      end
  end.

(** [item[k] = v] *)
Fixpoint dict_set (k v : str) (item : Item) : Item :=
  match item with
  | [] => [(k, v)]
  | (k', v') :: rest =>
      if decide (k' = k) then (k, v) :: rest else (k', v') :: dict_set k v rest
  end.

(** [re.sub(r"\s+", " ", raw).strip()] *)
Definition normalize (raw : str) : str := Py.strip (Py.collapse_ws false raw).

(** The value [parse_items] stores for one field, before CSV
    sanitization. *)
Definition field_value (config : ScraperConfig) (node : Tag) (field_sel : str)
  : str :=
  let raw := default [] (selector_find node field_sel) in
  if normalize_whitespace config then normalize raw else raw.

(** The item of one node as the first inner loop of [parse_items]
    leaves it. *)
Definition raw_item (config : ScraperConfig) (node : Tag) (target : Target)
  : Item :=
  fold_left
    (fun item fld => dict_set (fst fld) (field_value config node (snd fld)) item)
    (fields target)
    [(py "source", name target)].

(** The second inner loop: every value is a [str], so every value goes
    through [csv_safe]. *)
Definition sanitize_item (item : Item) : Item :=
  List.map (fun kv => (fst kv, csv_safe (snd kv))) item.

Definition parse_items (self : PersonScraper) (html : str) (target : Target)
  : list Item :=
  List.map (fun node => sanitize_item (raw_item (cfg self) node target))
           (soup_select html (item_selector target)).

(** *** The pipeline *)

(** [any(v for k, v in item.items() if k != "source")] *)
Definition has_content (item : Item) : bool :=
  existsb (fun kv => negb (bool_decide (fst kv = py "source")) && nonempty (snd kv))
          item.

(** [search]: an asynchronous generator; [EvYield] marks each item
    it hands to its consumer. *)
Definition search (self : PersonScraper) (query : option str) : M unit :=
  query <- lift (sanitize_query query) ;;
  _ <- session_ua ;;
  for_each (targets self) (fun target =>
    url <- lift (build_url (url_template target) query) ;;
    when (busqueda_intensiva (cfg self))
         (ua <- random_choice (user_agents (cfg self)) ;;
          set_session (Some (or_default ua))) ;;;
    html <- fetch self url ;;
    match html with
    | None | Some [] => ret tt
    | Some html =>
        for_each (parse_items self html target) (fun item =>
          when (has_content item) (emit (EvYield item)))
    end).

End WithWorld.

End Scraper.

(** ** A small implementation of the libraries

    Enough of [urlparse], [robotparser] and BeautifulSoup to run the
    scraper on concrete pages: URLs of the form [scheme://netloc/path],
    robots.txt files made of [User-agent:] and [Disallow:] lines, and
    HTML made of elements with double-quoted attributes and text. *)

Module Simple.

(** The longest prefix without a character satisfying [p], and the rest. *)
Fixpoint break (p : N -> bool) (s : str) : str * str :=
  match s with
  | [] => ([], [])
  | c :: s' =>
      if p c then ([], s)
      else let '(a, b) := break p s' in (c :: a, b)
  end.

Definition is_delim (c : N) : bool := (c =? 0x2F) || (c =? 0x3F) || (c =? 0x23).

Definition urlparse (url : str) : str * str :=
  let '(scheme, rest) := break (N.eqb 0x3A) url in
  if Py.startswith rest (py "://")
  then (scheme, fst (break is_delim (drop 3 rest)))
  else ([], []).

Definition url_path (url : str) : str :=
  let '(_, rest) := break (N.eqb 0x3A) url in
  snd (break is_delim (drop 3 rest)).

(** Lines are separated by LF. *)
Fixpoint splitlines_from (line : str) (s : str) : list str :=
  match s with
  | [] => match line with [] => [] | _ => [rev line] end
  | c :: s' =>
      if c =? 0x0A then rev line :: splitlines_from [] s'
      else splitlines_from (c :: line) s'
  end.

Definition splitlines (s : str) : list str := splitlines_from [] s.

(** *** robots.txt *)

(** A rule line: the path and whether it allows. *)
Definition Rule : Type := (str * bool)%type.

(** An entry: its user agents and its rule lines. *)
Definition Entry : Type := (list str * list Rule)%type.

Record Parser : Type := {
  entries : list Entry;
  default_entry : option Entry;
  last_checked : bool
}.

Definition fresh : Parser :=
  {| entries := []; default_entry := None; last_checked := false |}.

(** [_add_entry]: the first entry for [*] is kept apart, the others
    are kept in order. *)
Definition add_entry (p : Parser) (e : Entry) : Parser :=
  if existsb (fun a => bool_decide (a = py "*")) (fst e)
  then match default_entry p with
       | None => {| entries := entries p; default_entry := Some e;
                    last_checked := last_checked p |}
       | Some _ => p
       end
  else {| entries := entries p ++ [e]; default_entry := default_entry p;
          last_checked := last_checked p |}.

(** [urlparse(path)] raises [ValueError] on a network location with
    one square bracket and not the other. *)
Definition bad_netloc (path : str) : bool :=
  Py.startswith path (py "//")
  && (let netloc := fst (break is_delim (drop 2 path)) in
      xorb (existsb (N.eqb 0x5B) netloc) (existsb (N.eqb 0x5D) netloc)).

(** [RuleLine(path, False)]: an empty path allows everything. *)
Definition rule_line (path : str) : option Rule :=
  if bad_netloc path then None
  else Some (path, match path with [] => true | _ => false end).

(** The loop of [parse].  [state] is 0 at the start and after a blank
    line, 1 after a [User-agent:] line, 2 after a rule line; an entry
    is added to the parser when the next one begins, at a blank line
    and at the end, so the rules of the entry being read are lost when
    a line raises, and the entries added before stay. *)
Fixpoint parse_lines (state : nat) (entry : Entry) (p : Parser)
    (lines : list str) : Parser * option exn :=
  match lines with
  | [] =>
      (match state with 2%nat => add_entry p entry | _ => p end, None)
  | l :: ls =>
      match l with
      | [] =>
          match state with
          | 2%nat => parse_lines 0 ([], []) (add_entry p entry) ls
          | _ => parse_lines 0 ([], []) p ls
          end
      | _ =>
          if Py.startswith l (py "User-agent:")
          then
            let agent := Py.strip (drop 11 l) in
            match state with
            | 2%nat => parse_lines 1 ([agent], []) (add_entry p entry) ls
            | _ => parse_lines 1 (fst entry ++ [agent], snd entry) p ls
            end
          else if Py.startswith l (py "Disallow:")
          then
            match state with
            | O => parse_lines 0 entry p ls
            | _ =>
                match rule_line (Py.strip (drop 9 l)) with
                | None => (p, Some ValueError)
                | Some r => parse_lines 2 (fst entry, snd entry ++ [r]) p ls
                end
            end
          else parse_lines state entry p ls
      end
  end.

(** [rp.parse(lines)]: the time of the check is set first. *)
Definition parse_robots (p : Parser) (lines : list str) : Parser * option exn :=
  parse_lines 0 ([], [])
    {| entries := entries p; default_entry := default_entry p;
       last_checked := true |}
    lines.

Definition lower (s : str) : str :=
  List.map (fun c => if (0x41 <=? c) && (c <=? 0x5A) then c + 32 else c) s.

(** [entry.applies_to(useragent)] *)
Definition applies_to (e : Entry) (ua : str) : bool :=
  let name := lower (fst (break (N.eqb 0x2F) ua)) in
  existsb (fun agent => bool_decide (agent = py "*")
                        || Py.contains (lower agent) name)
          (fst e).

(** [entry.allowance(filename)]: the first rule line that applies
    decides. *)
Fixpoint rules_allow (rules : list Rule) (filename : str) : bool :=
  match rules with
  | [] => true
  | (path, allow) :: rest =>
      if bool_decide (path = py "*") || Py.startswith filename path
      then allow
      else rules_allow rest filename
  end.

(** [rp.can_fetch(ua, url)] *)
Definition can_fetch (p : Parser) (ua url : str) : bool :=
  if negb (last_checked p) then false
  else
    let filename := match url_path url with [] => py "/" | f => f end in
    match List.find (fun e => applies_to e ua) (entries p) with
    | Some e => rules_allow (snd e) filename
    | None =>
        match default_entry p with
        | Some e => rules_allow (snd e) filename
        | None => true
        end
    end.

(** *** HTML *)

#[warnings="-register-all"] Inductive Node : Type :=
| Text (s : str)
| Element (tag : str) (attrs : list (str * str)) (children : list Node).

Inductive Token : Type :=
| TOpen (tag : str) (attrs : list (str * str))
| TClose
| TText (s : str).

Inductive AttrMode : Type := AName | AEquals | AValue.

(** The attributes of a start tag: [name="value"] or a bare [name]. *)
Fixpoint attrs_from (mode : AttrMode) (k v : str) (s : str) : list (str * str) :=
  match s with
  | [] => match mode, k with AName, _ :: _ => [(rev k, [])] | _, _ => [] end
  | c :: s' =>
      match mode with
      | AName =>
          if c =? 0x20
          then match k with
               | [] => attrs_from AName [] [] s'
               | _ => (rev k, []) :: attrs_from AName [] [] s'
               end
          else if c =? 0x3D then attrs_from AEquals k [] s'
          else attrs_from AName (c :: k) [] s'
      | AEquals => attrs_from AValue k [] s'
      | AValue =>
          if c =? 0x22 then (rev k, rev v) :: attrs_from AName [] [] s'
          else attrs_from AValue k (c :: v) s'
      end
  end.

Definition tag_token (body : str) : Token :=
  match body with
  | 0x2F :: _ => TClose
  | _ =>
      let '(tag, rest) := break (N.eqb 0x20) body in
      TOpen tag (attrs_from AName [] [] rest)
  end.

Definition text_token (acc : str) : list Token :=
  match acc with [] => [] | _ => [TText (rev acc)] end.

Fixpoint lex (in_tag : bool) (acc : str) (s : str) : list Token :=
  match s with
  | [] => if in_tag then [] else text_token acc
  | c :: s' =>
      if in_tag
      then (if c =? 0x3E then tag_token (rev acc) :: lex false [] s'
            else lex true (c :: acc) s')
      else (if c =? 0x3C then text_token acc ++ lex true [] s'
            else lex false (c :: acc) s')
  end.

(** The open elements, innermost first, each with the children its
    parent has so far; [cur] holds the children of the innermost one.
    Children are kept in reverse order until their element is closed. *)
Definition Frame : Type := str * list (str * str) * list Node.

Fixpoint close_all (cur : list Node) (stack : list Frame) : list Node :=
  match stack with
  | [] => rev cur
  | (tag, attrs, siblings) :: stack' =>
      close_all (Element tag attrs (rev cur) :: siblings) stack'
  end.

Fixpoint build (tokens : list Token) (cur : list Node) (stack : list Frame)
  : list Node :=
  match tokens with
  | [] => close_all cur stack
  | TText s :: tokens' => build tokens' (Text s :: cur) stack
  | TOpen tag attrs :: tokens' => build tokens' [] ((tag, attrs, cur) :: stack)
  | TClose :: tokens' =>
      match stack with
      | [] => build tokens' cur []
      | (tag, attrs, siblings) :: stack' =>
          build tokens' (Element tag attrs (rev cur) :: siblings) stack'
      end
  end.

(** The document: its top-level nodes under one root. *)
Definition parse (html : str) : Node :=
  Element (py "[document]") [] (build (lex false [] html) [] []).

(** The elements below a node, in document order. *)
Fixpoint elements (n : Node) : list Node :=
  match n with
  | Text _ => []
  | Element _ _ children =>
      flat_map (fun c => match c with
                         | Text _ => []
                         | Element _ _ _ => c :: elements c
                         end) children
  end.

Fixpoint lookup_attr (k : str) (attrs : list (str * str)) : option str :=
  match attrs with
  | [] => None
  | (k', v) :: rest => if decide (k' = k) then Some v else lookup_attr k rest
  end.

Definition get_attr (n : Node) (k : str) : option str :=
  match n with
  | Text _ => None
  | Element _ attrs _ => lookup_attr k attrs
  end.

Fixpoint words_from (word : str) (s : str) : list str :=
  match s with
  | [] => match word with [] => [] | _ => [rev word] end
  | c :: s' =>
      if Py.isspace c
      then match word with
           | [] => words_from [] s'
           | _ => rev word :: words_from [] s'
           end
      else words_from (c :: word) s'
  end.

(** The four selector forms: [.class], [#id], [tag[attr]] and [tag]. *)
Definition matches (selector : str) (n : Node) : bool :=
  match n, selector with
  | Element tag attrs _, 0x2E :: cls =>
      match lookup_attr (py "class") attrs with
      | Some v => bool_decide (cls ∈ words_from [] v)
      | None => false
      end
  | Element tag attrs _, 0x23 :: id =>
      bool_decide (lookup_attr (py "id") attrs = Some id)
  | Element tag attrs _, _ =>
      let '(want, rest) := break (N.eqb 0x5B) selector in
      bool_decide (want = tag) &&
      match rest with
      | [] => true
      | _ :: attr =>
          match lookup_attr (fst (break (N.eqb 0x5D) attr)) attrs with
          | Some _ => true
          | None => false
          end
      end
  | Text _, _ => false
  end.

Definition select (n : Node) (selector : str) : list Node :=
  List.filter (matches selector) (elements n).

Definition has_tag (tag : str) (n : Node) : bool :=
  match n with
  | Text _ => false
  | Element tag' _ _ => bool_decide (tag' = tag)
  end.

Definition find (n : Node) (tag : str) : option Node :=
  head (List.filter (has_tag tag) (elements n)).

Fixpoint strings (n : Node) : list str :=
  match n with
  | Text s => [s]
  | Element _ _ children => flat_map strings children
  end.

Definition get_text_strip (n : Node) : str :=
  concat (List.map Py.strip (strings n)).

End Simple.

Definition simple_url : UrlParse := {| urlparse := Simple.urlparse |}.

Definition simple_robots : RobotsLib :=
  {| RobotFileParser := Simple.Parser;
     rp_new := Simple.fresh;
     rp_parse := Simple.parse_robots;
     rp_can_fetch := Simple.can_fetch;
     splitlines := Simple.splitlines;
     rp_parse_nil := fun _ => eq_refl |}.

Definition simple_soup : SoupLib :=
  {| Tag := Simple.Node;
     soup_select := fun html selector => Simple.select (Simple.parse html) selector;
     select_one := fun node selector => head (Simple.select node selector);
     soup_find := Simple.find;
     get_attr := Simple.get_attr;
     get_text_strip := Simple.get_text_strip |}.

(** * Vocabulary of the properties *)

(** The value begins with one of [+ - = @ TAB]. *)
Definition formula_prefixed (text : str) : Prop :=
  exists c rest, text = c :: rest /\
    (c = 0x2B \/ c = 0x2D \/ c = 0x3D \/ c = 0x40 \/ c = 0x09).

Definition blank_control (c : N) : N := if is_control c then 0x20 else c.

(** The spec's wording of the rejected queries: the query with its
    leading and trailing control characters trimmed. *)
Fixpoint ltrim_control (q : str) : str :=
  match q with
  | c :: q' => if is_control c then ltrim_control q' else q
  | [] => []
  end.

Definition trim_control (q : str) : str :=
  rev (ltrim_control (rev (ltrim_control q))).

Definition page_gets (t : list Event) : list str :=
  flat_map (fun e => match e with EvGet url _ => [url] | _ => [] end) t.

Definition backoffs (t : list Event) : list Q :=
  flat_map (fun e => match e with EvBackoff d => [d] | _ => [] end) t.

Definition robots_gets (t : list Event) : list str :=
  flat_map (fun e => match e with EvRobotsGet url _ => [url] | _ => [] end) t.

Definition yields (t : list Event) : list Item :=
  flat_map (fun e => match e with EvYield item => [item] | _ => [] end) t.


(** The configuration without its legacy alias. *)
Definition forget_alias (c : ScraperConfig) : ScraperConfig :=
  {| concurrency := concurrency c;
     connect_timeout_s := connect_timeout_s c;
     read_timeout_s := read_timeout_s c;
     total_timeout_s := total_timeout_s c;
     max_retries := max_retries c;
     backoff_base := backoff_base c;
     user_agents := user_agents c;
     obey_robots := obey_robots c;
     rate_delay_s := rate_delay_s c;
     output_csv := output_csv c;
     output_sqlite := output_sqlite c;
     normalize_whitespace := normalize_whitespace c;
     busqueda_intensiva := busqueda_intensiva c;
     busqueda_intesiva := None |}.

(** The same settings with intensive mode asked for by its proper name. *)
Definition intensive (c : ScraperConfig) : ScraperConfig :=
  {| concurrency := concurrency c;
     connect_timeout_s := connect_timeout_s c;
     read_timeout_s := read_timeout_s c;
     total_timeout_s := total_timeout_s c;
     max_retries := max_retries c;
     backoff_base := backoff_base c;
     user_agents := user_agents c;
     obey_robots := obey_robots c;
     rate_delay_s := rate_delay_s c;
     output_csv := output_csv c;
     output_sqlite := output_sqlite c;
     normalize_whitespace := normalize_whitespace c;
     busqueda_intensiva := true;
     busqueda_intesiva := None |}.

Section Vocabulary.

Context {url_lib : UrlParse} {robots_lib : RobotsLib} {soup_lib : SoupLib}.
Variable w : World.

(** The value of a resolved node by the precedence [href], [src], text. *)
Definition node_value (found : Tag) : str :=
  match get_attr found (py "href") with
  | Some v => v
  | None =>
      match get_attr found (py "src") with
      | Some v => v
      | None => get_text_strip found
      end
  end.

(** The spec's wording of the extracted value: whitespace is
    normalized in the visible text only. *)
Definition claimed_field_value (config : ScraperConfig) (found : Tag) : str :=
  match get_attr found (py "href") with
  | Some v => v
  | None =>
      match get_attr found (py "src") with
      | Some v => v
      | None =>
          if normalize_whitespace config
          then normalize (get_text_strip found)
          else get_text_strip found
      end
  end.

(** Every answer to a GET of [url] carries a retryable status. *)
Definition always_retryable (url : str) : Prop :=
  forall k, exists status content_type body,
    http w k url = HttpResponse status content_type body
    /\ retryable status = true.

(** The attempts numbered [a], [a+1], ..., [a+len-1]. *)
Definition attempts_from (a : Z) (len : nat) : list Z :=
  List.map (fun i => (a + Z.of_nat i)%Z) (seq 0 len).

(** The sleep after attempt [a] lasts [base * 2^(a-1)] scaled by a
    jitter factor of at least 0.7 and less than 1.3. *)
Definition jittered (base : Q) (a : Z) (delay : Q) : Prop :=
  exists jitter : Q,
    ((7 # 10) <= jitter)%Q /\ (jitter < (13 # 10))%Q
    /\ (delay == base * inject_Z (2 ^ (a - 1)) * jitter)%Q.

(** The delays of the backoff sleeps after the attempts [a], [a+1],
    ..., when the random generator is at its [d]-th draw. *)
Definition expected_backoffs (base : Q) (a : Z) (d count : nat) : list Q :=
  List.map (fun i => backoff_delay (a + Z.of_nat i) base
                                   (random_random w (d + i)))
           (seq 0 count).

(** The answer to the robots.txt request is a 200 whose body could be
    read. *)
Definition robots_document (r : HttpResult) : Prop :=
  exists content_type text, r = HttpResponse 200 content_type (inr text).

(** The parser of a host without rules: [rp = RobotFileParser();
    rp.parse([])]. *)
Definition empty_policy : RobotFileParser := fst (rp_parse rp_new []).




End Vocabulary.

(** * Concrete inputs *)

Definition sample_node : Simple.Node :=
  Simple.Element (py "div") []
    [Simple.Element (py "a") [(py "href", py " /u/ada")] [Simple.Text (py "Ada")]].

Definition sample_link : Simple.Node :=
  Simple.Element (py "a") [(py "href", py " /u/ada")] [Simple.Text (py "Ada")].

Definition sample_title : Simple.Node :=
  Simple.Element (py "span") [(py "class", py "title")]
    [Simple.Text (py "Ada  Lovelace")].

Definition sample_title_node : Simple.Node :=
  Simple.Element (py "div") [] [sample_title].



Definition defaults : ScraperConfig :=
  {| concurrency := 8; connect_timeout_s := 5; read_timeout_s := 10;
     total_timeout_s := 20; max_retries := 3; backoff_base := 1 # 2;
     user_agents := [DEFAULT_UA]; obey_robots := true; rate_delay_s := 0;
     output_csv := Some (py "results.csv"); output_sqlite := None;
     normalize_whitespace := true; busqueda_intensiva := false;
     busqueda_intesiva := None |}.

(** [--retries 2 --no-robots] *)
Definition two_retries : ScraperConfig :=
  {| concurrency := 8; connect_timeout_s := 5; read_timeout_s := 10;
     total_timeout_s := 20; max_retries := 2; backoff_base := 1 # 2;
     user_agents := [DEFAULT_UA]; obey_robots := false; rate_delay_s := 0;
     output_csv := Some (py "results.csv"); output_sqlite := None;
     normalize_whitespace := true; busqueda_intensiva := false;
     busqueda_intesiva := None |}.

(** [--intesiva] *)
Definition legacy_flag : ScraperConfig :=
  {| concurrency := 8; connect_timeout_s := 5; read_timeout_s := 10;
     total_timeout_s := 20; max_retries := 3; backoff_base := 1 # 2;
     user_agents := [DEFAULT_UA]; obey_robots := true; rate_delay_s := 0;
     output_csv := Some (py "results.csv"); output_sqlite := None;
     normalize_whitespace := true; busqueda_intensiva := false;
     busqueda_intesiva := Some true |}.

Definition DEFAULT_TARGETS : list Target :=
  [ {| name := py "PeopleSearchExample";
       url_template := py "https://example.com/search{query}";
       item_selector := py ".result";
       fields := [(py "title", py ".title"); (py "full_name", py ".name");
                  (py "username", py ".handle"); (py "link", py "a[href]");
                  (py "snippet", py ".summary")] |} ].

(** A server that answers every request with 503. *)
Definition unavailable : World :=
  {| http := fun _ _ => HttpResponse 503 (py "text/html") (inr []);
     random_random := fun _ => 1 # 2;
     random_index := fun _ => O |}.

(** A host whose robots.txt closes [/private] to every agent. *)
Definition guarded : World :=
  {| http := fun _ url =>
       if bool_decide (url = py "https://example.com/robots.txt")
       then HttpResponse 200 (py "text/plain")
              (inr (py "User-agent: *" ++ [0x0A] ++ py "Disallow: /private"))
       else HttpResponse 200 (py "text/html") (inr (py "<p>hello</p>"));
     random_random := fun _ => 1 # 2;
     random_index := fun _ => O |}.

(** A robots.txt that closes the host to every agent and then has a
    rule line [urlparse] cannot read. *)
Definition malformed_robots_txt : str :=
  py "User-agent: *" ++ [0x0A] ++ py "Disallow: /" ++ [0x0A]
  ++ py "User-agent: x" ++ [0x0A] ++ py "Disallow: //[".

Definition malformed_policy : World :=
  {| http := fun _ url =>
       if bool_decide (url = py "https://example.com/robots.txt")
       then HttpResponse 200 (py "text/plain") (inr malformed_robots_txt)
       else HttpResponse 200 (py "text/html") (inr (py "<p>hello</p>"));
     random_random := fun _ => 1 # 2;
     random_index := fun _ => O |}.

(** The literal with every apostrophe read as a double quote. *)
Definition quoted (s : string) : str :=
  List.map (fun c => if c =? 0x27 then 0x22 else c) (py s).

Definition results_page : str :=
  quoted "<html><body><div class='result'><span class='title'>Countess</span><span class='name'>Ada  Lovelace</span><span class='handle'>@ada</span><a href='/u/ada'>profile</a><p class='summary'>=SUM(A1)</p></div><div class='result'><span class='title'>Mr</span><span class='name'>Charles Babbage</span><span class='handle'>cb</span><a href='/u/cb'>profile</a><p class='summary'>engines</p></div><div class='result'></div></body></html>".

(** A host without robots.txt that serves [results_page]. *)
Definition serving : World :=
  {| http := fun _ url =>
       if bool_decide (url = py "https://example.com/robots.txt")
       then HttpResponse 404 (py "text/html") (inr [])
       else HttpResponse 200 (py "text/html; charset=utf-8") (inr results_page);
     random_random := fun _ => 1 # 2;
     random_index := fun _ => O |}.

(** A scraper inside [async with]: the session is open, the semaphore
    free, the cache empty. *)
Definition entered : @State simple_robots :=
  {| robots_cache := ∅; session := Some DEFAULT_UA; sem := 8;
     n_requests := O; n_draws := O; trace := [] |}.

Definition search_url : str := py "https://example.com/search?q=Ada".
Definition private_url : str := py "https://example.com/private/ada".

(** * The sink and the command line *)

(** The columns of the output file. *)
Definition fieldnames : list str :=
  [py "source"; py "title"; py "full_name"; py "username"; py "link";
   py "snippet"].

(** [item.get(k, "")] *)
Fixpoint dict_get (k : str) (item : Item) : str :=
  match item with
  | [] => []
  | (k', v) :: rest => if decide (k' = k) then v else dict_get k rest
  end.

(** The cells of [{k: item.get(k, "") for k in fieldnames}]. *)
Definition csv_row (item : Item) : list str :=
  List.map (fun k => dict_get k item) fieldnames.

(** The namespace [argparse] hands to [parse_cli]; [--ua] may be
    repeated, and is [None] when absent. *)
Record Args : Type := {
  arg_query : str;
  arg_concurrency : Z;
  arg_timeout : Q;
  arg_connect_timeout : Q;
  arg_read_timeout : Q;
  arg_retries : Z;
  arg_rate_delay : Q;
  arg_ua : option (list str);
  arg_csv : str;
  arg_no_robots : bool;
  arg_intensiva : bool;
  arg_intesiva : bool;
  arg_verbose : bool
}.

(** [parse_cli], after [p.parse_args(argv)]. *)
Definition parse_cli (args : Args) : str * ScraperConfig :=
  (arg_query args,
   {| concurrency := Z.max 1 (arg_concurrency args);
      connect_timeout_s := arg_connect_timeout args;
      read_timeout_s := arg_read_timeout args;
      total_timeout_s := arg_timeout args;
      max_retries := Z.max 0 (arg_retries args);
      backoff_base := 1 # 2;
      user_agents := match arg_ua args with
                     | Some ((_ :: _) as uas) => uas
                     | _ => [DEFAULT_UA]
                     end;
      obey_robots := negb (arg_no_robots args);
      rate_delay_s := if Qle_bool (arg_rate_delay args) 0
                      then 0 else arg_rate_delay args;
      output_csv := Some (arg_csv args);
      output_sqlite := None;
      normalize_whitespace := true;
      busqueda_intensiva := arg_intensiva args;
      busqueda_intesiva := Some (arg_intesiva args) |}).

(** What [run_to_csv] asks of the operating system: [os.path.dirname],
    and whether [os.makedirs(d, exist_ok=True)], [open(path, "w", ...)],
    the writing of the [k]-th line of the file and the closing of the
    file at the end of the [with] block raise. *)
Record OS : Type := {
  dirname : str -> str;
  makedirs : str -> option exn;
  open_w : str -> option exn;
  write : nat -> list str -> option exn;
  close_w : str -> option exn
}.

(** [os.makedirs(os.path.dirname(path) or ".", exist_ok=True)], then
    [open(path, "w", ...)]: the exception raised, if any. *)
Definition open_output (os : OS) (path : str) : option exn :=
  match makedirs os (match dirname os path with [] => py "." | d => d end) with
  | Some e => Some e
  | None => open_w os path
  end.

(** The lines the file takes when rows are written one after the
    other from line [k] on: those before the first write that raises. *)
Fixpoint written (os : OS) (k : nat) (rows : list (list str))
  : list (list str) :=
  match rows with
  | [] => []
  | row :: rest =>
      match write os k row with
      | None => row :: written os (S k) rest
      | Some _ => []
      end
  end.

Section Sink.

Context {url_lib : UrlParse} {robots_lib : RobotsLib} {soup_lib : SoupLib}.
Variable w : World.

Local Notation "x <- m ;; k" := (bind m (fun x => k))
  (at level 100, m at next level, right associativity).
Local Notation "m ;;; k" := (bind m (fun _ => k))
  (at level 100, right associativity).

(** The events of a run that started in [st] and is now in [st']. *)
Definition events_since (st st' : State) : list Event :=
  drop (length (trace st)) (trace st').

(** [async for item in self.search(query): body]: the generator of
    [search] with its consumer.  The body runs each time an item is
    handed over, before the generator is resumed; when the body
    raises, the generator is not resumed. *)
Definition search_for (body : Item -> M unit) (self : PersonScraper)
    (query : option str) : M unit :=
  query <- lift (sanitize_query query) ;;
  _ <- session_ua ;;
  for_each (targets self) (fun target =>
    url <- lift (build_url (url_template target) query) ;;
    when (busqueda_intensiva (cfg self))
         (ua <- random_choice w (user_agents (cfg self)) ;;
          set_session (Some (or_default ua))) ;;;
    html <- fetch w self url ;;
    match html with
    | None | Some [] => ret tt
    | Some html =>
        for_each (parse_items self html target) (fun item =>
          when (has_content item) (emit (EvYield item) ;;; body item))
    end).

(** [writer.writerow(row)] for the item just handed over, in a run
    that started in [st0]: the header is line 0 of the file, the row
    of the [k]-th item is line [k]. *)
Definition write_row (os : OS) (st0 : State) (item : Item) : M unit :=
  fun st =>
    match write os (length (yields (events_since st0 st))) (csv_row item) with
    | None => (Ret tt, st)
    | Some e => (Raise e, st)
    end.

(** [run_to_csv]: the result, the state, and the lines the output
    file has taken, [None] when no file was opened.  With an output
    path the directory is made and the file opened before anything
    else; the header is written, then the row of each item as [search]
    hands it over, and a row is counted once it is written.  An
    exception of the operating system ends the run where it is raised.
    The [with] block closes the file however the run inside it ended,
    unless it never ends; an exception raised by the closing takes the
    place of the outcome.  Without an output path the items are only
    counted. *)
Definition run_to_csv (os : OS) (self : PersonScraper) (query : option str)
    (st : State) : outcome nat * State * option (list (list str)) :=
  let count (o : outcome unit) (st' : State) : outcome nat :=
    match o with
    | Ret _ => Ret (length (yields (events_since st st')))
    | Raise e => Raise e
    | Hang => Hang
    end in
  match output_csv (cfg self) with
  | Some ((_ :: _) as path) =>
      match open_output os path with
      | Some e => (Raise e, st, None)
      | None =>
          let '(o, st', lines) :=
            match write os 0 fieldnames with
            | Some e => (Raise e, st, [])
            | None =>
                let '(o, st') := search_for (write_row os st) self query st in
                (count o st', st',
                 fieldnames
                 :: written os 1
                      (List.map csv_row (yields (events_since st st'))))
            end in
          match o, close_w os path with
          | Hang, _ => (Hang, st', Some lines)
          | _, Some e => (Raise e, st', Some lines)
          | _, None => (o, st', Some lines)
          end
      end
  | _ =>
      let '(o, st') := search w self query st in
      (count o st', st', None)
  end.

(** [main_async]: the scraper is built, entered, run and left; leaving
    closes the session, also when the run raised.  The closing log
    line (rows and elapsed time) is not recorded. *)
Definition main_async (os : OS) (query : option str) (config : ScraperConfig)
    (st : State) : outcome Z * State * option (list (list str)) :=
  match PersonScraper_init config DEFAULT_TARGETS st with
  | (Ret scraper, st1) =>
      match aenter w scraper st1 with
      | (Ret _, st2) =>
          match run_to_csv os scraper query st2 with
          | (Ret _, st3, file) => (Ret 0%Z, snd (aexit st3), file)
          | (Raise e, st3, file) => (Raise e, snd (aexit st3), file)
          | (Hang, st3, file) => (Hang, st3, file)
          end
      | (Raise e, st2) => (Raise e, st2, None)
      | (Hang, st2) => (Hang, st2, None)
      end
  | (Raise e, st1) => (Raise e, st1, None)
  | (Hang, st1) => (Hang, st1, None)
  end.

(** [main], without the handler of [KeyboardInterrupt]. *)
Definition main (os : OS) (args : Args) (st : State)
  : outcome Z * State * option (list (list str)) :=
  let '(query, config) := parse_cli args in
  main_async os (Some query) config st.

End Sink.

(** * Vocabulary of the further properties *)

(** A character that needs no escaping in a URL query string, or one
    that [quote_plus] writes for those that do. *)
Definition url_safe (c : N) : Prop :=
  Urllib.always_safe c = true \/ c = 0x25 \/ c = 0x2B.

Definition is_surrogate (c : N) : bool := (0xD800 <=? c) && (c <=? 0xDFFF).

(** The slot of the semaphore along a run.  [held] tells whether the
    slot is taken; the answer is [None] when an event comes at the
    wrong moment: a request for a page (or the rate delay before it)
    without the slot, or a backoff sleep, a robots.txt request or an
    item handed over while the slot is taken. *)
Fixpoint limiter (held : bool) (t : list Event) : option bool :=
  match t with
  | [] => Some held
  | EvAcquire :: t' => if held then None else limiter true t'
  | EvRelease :: t' => if held then limiter false t' else None
  | EvGet _ _ :: t' => if held then limiter true t' else None
  | EvRateDelay _ :: t' => if held then limiter true t' else None
  | EvBackoff _ :: t' => if held then None else limiter false t'
  | EvRobotsGet _ _ :: t' => if held then None else limiter false t'
  | EvYield _ :: t' => if held then None else limiter false t'
  | EvLog _ :: t' => limiter held t'
  end.


(** The same scraper with other targets. *)
Definition with_targets (self : PersonScraper) (tgts : list Target)
  : PersonScraper :=
  {| cfg := cfg self; targets := tgts |}.

Section Emits.

Context {robots_lib : RobotsLib}.

(** Whatever the action does, the events it adds all satisfy [ok]. *)
Definition emits (ok : Event -> Prop) {A} (m : M A) : Prop :=
  forall st o st', m st = (o, st') ->
    exists new, trace st' = trace st ++ new /\ Forall ok new.

(** An item worth a row: some field other than the source is filled,
    and no value begins with a formula character. *)
Definition presentable (item : Item) : Prop :=
  has_content item = true
  /\ Forall (fun kv => ~ formula_prefixed (snd kv)) item.

Definition yields_presentable (e : Event) : Prop :=
  match e with
  | EvYield item => presentable item
  | _ => True
  end.

(** Every page requested satisfies [P]. *)
Definition gets_satisfy (P : str -> Prop) (e : Event) : Prop :=
  match e with
  | EvGet url _ => P url
  | _ => True
  end.

End Emits.

(** Whitespace is normalized: the only whitespace is the space, never
    doubled, never first or last. *)
Fixpoint single_spaced (s : str) : Prop :=
  match s with
  | [] => True
  | c :: s' =>
      (Py.isspace c = true -> c = 0x20)
      /\ match s' with
         | d :: _ => ~ (c = 0x20 /\ d = 0x20)
         | [] => True
         end
      /\ single_spaced s'
  end.

Definition trimmed (s : str) : Prop :=
  match s with
  | [] => True
  | c :: _ => Py.isspace c = false /\ forall d, last s = Some d -> Py.isspace d = false
  end.

(** One step of the first inner loop of [parse_items]. *)
Definition store_field {soup_lib : SoupLib} (config : ScraperConfig)
    (node : Tag) (item : Item) (fld : str * str) : Item :=
  dict_set (fst fld) (field_value config node (snd fld)) item.

(** The tasks of callers that have not started yet. *)
Definition calls_pending (calls : list (str * str)) : list Task :=
  List.map (fun c => Pending (fst c) (snd c)) calls.



(** The schedule that resumes each of [n] callers to its end before
    the next one starts. *)
Definition in_turn (first n : nat) : list nat :=
  flat_map (fun i => [i; i]) (seq first n).





Section Written.

Context {robots_lib : RobotsLib}.



End Written.

(** * Further inputs *)

Definition people_search : Target :=
  {| name := py "PeopleSearchExample";
     url_template := py "https://example.com/search{query}";
     item_selector := py ".result";
     fields := [(py "title", py ".title"); (py "full_name", py ".name");
                (py "username", py ".handle"); (py "link", py "a[href]");
                (py "snippet", py ".summary")] |}.

(** A target whose template has no placeholder. *)
Definition fixed_page : Target :=
  {| name := py "FixedPage";
     url_template := py "https://example.com/people";
     item_selector := py ".result";
     fields := [(py "title", py ".title")] |}.

(** A target one of whose fields is called [source]. *)
Definition labelled : Target :=
  {| name := py "PeopleSearchExample";
     url_template := py "https://example.com/search{query}";
     item_selector := py ".result";
     fields := [(py "source", py ".title"); (py "full_name", py ".name")] |}.

(** [posixpath.dirname] *)
Definition posix_dirname (p : str) : str :=
  let head := rev (snd (Simple.break (N.eqb 0x2F) (rev p))) in
  if forallb (N.eqb 0x2F) head then head
  else rev (snd (Simple.break (fun c => negb (c =? 0x2F)) (rev head))).

(** A file system in which every path that ends in a dot or a slash
    is a directory, which cannot be opened for writing, and nothing
    else fails. *)
Definition plain_files : OS :=
  {| dirname := posix_dirname;
     makedirs := fun _ => None;
     open_w := fun p =>
       match rev p with
       | c :: _ => if (c =? 0x2E) || (c =? 0x2F) then Some OSError else None
       | [] => Some OSError
       end;
     write := fun _ _ => None;
     close_w := fun _ => None |}.

(** [search-person-v2.py Ada --csv .] *)
Definition into_directory : Args :=
  {| arg_query := py "Ada"; arg_concurrency := 8; arg_timeout := 20;
     arg_connect_timeout := 5; arg_read_timeout := 10; arg_retries := 3;
     arg_rate_delay := 0; arg_ua := None; arg_csv := py ".";
     arg_no_robots := false; arg_intensiva := false; arg_intesiva := false;
     arg_verbose := false |}.


(** An open session whose slots are all taken. *)
Definition saturated : @State simple_robots :=
  {| robots_cache := ∅; session := Some DEFAULT_UA; sem := 0;
     n_requests := O; n_draws := O; trace := [] |}.

(** * Properties *)

Ltac run :=
  cbv beta iota zeta delta
    [bind ret lift emit when acquire release get_state set_sem request draw
     sleep_backoff cache_store set_session session_ua log_failure];
  simpl.

(** ** Strings *)

Lemma startswith_spec (s p : str) :
  Py.startswith s p = true <-> exists post, s = p ++ post.
Proof.
  revert s; induction p as [|a p IH]; intros s; simpl.
  - split; [intros _; exists s; reflexivity | destruct s; reflexivity].
  - destruct s as [|b s].
    + split; [discriminate | intros [post H]; discriminate].
    + simpl. rewrite andb_true_iff, N.eqb_eq, IH. split.
      * intros [-> [post ->]]. exists post. reflexivity.
      * intros [post H]. injection H as -> ->. split; [reflexivity | eauto].
Qed.

Lemma contains_spec (p s : str) :
  Py.contains p s = true <-> exists pre post, s = pre ++ p ++ post.
Proof.
  induction s as [|c s IH]; cbn [Py.contains].
  - rewrite orb_false_r, startswith_spec. split.
    + intros [post H]. exists [], post. exact H.
    + intros [pre [post H]]. destruct pre as [|x pre]; [|discriminate].
      exists post. exact H.
  - rewrite orb_true_iff, startswith_spec, IH. split.
    + intros [[post H] | [pre [post H]]].
      * exists [], post. exact H.
      * exists (c :: pre), post. simpl. rewrite H. reflexivity.
    + intros [pre [post H]]. destruct pre as [|x pre].
      * left. exists post. exact H.
      * right. injection H as -> ->. exists pre, post. reflexivity.
Qed.

Lemma lstrip_nil (s : str) :
  Py.lstrip s = [] <-> forallb Py.isspace s = true.
Proof.
  induction s as [|c s IH]; simpl; [tauto|].
  destruct (Py.isspace c); simpl; [exact IH|].
  split; discriminate.
Qed.

Lemma lstrip_head (s : str) (c : N) (r : str) :
  Py.lstrip s = c :: r -> Py.isspace c = false.
Proof.
  induction s as [|d s IH]; simpl; [discriminate|].
  destruct (Py.isspace d) eqn:E; [exact IH|].
  intros H. injection H as -> _. exact E.
Qed.

Lemma forallb_rev {A} (f : A -> bool) (l : list A) :
  forallb f (rev l) = forallb f l.
Proof.
  induction l as [|x l IH]; simpl; [reflexivity|].
  rewrite forallb_app, IH. simpl. rewrite andb_true_r. apply andb_comm.
Qed.

(** [s.strip()] is empty exactly when [s] is made of whitespace. *)
Lemma strip_nil (s : str) :
  Py.strip s = [] <-> forallb Py.isspace s = true.
Proof.
  unfold Py.strip, Py.rstrip. split.
  - intros H.
    assert (Hl : Py.lstrip (rev (Py.lstrip s)) = []).
    { apply (f_equal (@rev N)) in H. rewrite rev_involutive in H. exact H. }
    apply lstrip_nil in Hl. rewrite forallb_rev in Hl.
    destruct (Py.lstrip s) as [|c r] eqn:E.
    + apply lstrip_nil. exact E.
    + apply lstrip_head in E. simpl in Hl. rewrite E in Hl. discriminate.
  - intros H. apply lstrip_nil in H. rewrite H. reflexivity.
Qed.

(** ** CSV sanitization *)

Lemma csv_prefix_spec (c : N) :
  existsb (N.eqb c) SAFE_CSV_PREFIXES = true <->
  (c = 0x2B \/ c = 0x2D \/ c = 0x3D \/ c = 0x40 \/ c = 0x09).
Proof.
  unfold SAFE_CSV_PREFIXES. simpl.
  rewrite !orb_true_iff, !N.eqb_eq. intuition discriminate.
Qed.

Lemma csv_safe_cases (text : str) :
  (formula_prefixed text /\ csv_safe text = 0x27 :: text)
  \/ (~ formula_prefixed text /\ csv_safe text = text).
Proof.
  destruct text as [|c rest]; unfold csv_safe.
  - right. split; [intros [c [r [H _]]]; discriminate | reflexivity].
  - destruct (existsb (N.eqb c) SAFE_CSV_PREFIXES) eqn:E.
    + left. split; [|reflexivity].
      exists c, rest. split; [reflexivity|]. apply csv_prefix_spec. exact E.
    + right. split; [|reflexivity].
      intros [c' [r [H Hc]]]. injection H as <- <-.
      apply csv_prefix_spec in Hc. congruence.
Qed.

Lemma cons_neq_self {A} (x : A) (l : list A) : x :: l <> l.
Proof.
  intros H. apply (f_equal (@length A)) in H. simpl in H. lia.
Qed.

(** ** Query validation *)

Lemma sanitize_query_some (s : str) :
  sanitize_query (Some s) =
  match Py.strip s with
  | [] => Raise ValueError
  | _ => Ret (List.map blank_control (take 200 (Py.strip s)))
  end.
Proof.
  unfold sanitize_query, Py.slice_to.
  destruct (Py.strip s) as [|c r] eqn:E; [reflexivity|].
  destruct (200 <? length (c :: r))%nat eqn:L; [reflexivity|].
  apply Nat.ltb_ge in L. rewrite firstn_all2 by exact L. reflexivity.
Qed.

Section QueryValidation.

Context {url_lib : UrlParse} {robots_lib : RobotsLib} {soup_lib : SoupLib}.

(** C3 (as amended).  [sanitize_query] raises [ValueError] exactly
    when the query is [None] or consists of whitespace only, that is,
    is empty after [str.strip()]; [search] then raises before it
    touches the session, the network or the trace.  Every other query
    is accepted: it is stripped, cut to its first 200 characters when
    longer, and its control characters are replaced by spaces. *)
Theorem sanitize_query_rejects_blank_only
    (w : World) (self : PersonScraper) (st : State) (q : option str) :
  (sanitize_query q = Raise ValueError <->
     q = None \/ exists s, q = Some s /\ forallb Py.isspace s = true)
  /\ (sanitize_query q = Raise ValueError ->
      search w self q st = (Raise ValueError, st))
  /\ (forall s, q = Some s -> forallb Py.isspace s = false ->
      sanitize_query q
        = Ret (List.map blank_control (take 200 (Py.strip s)))
      /\ length (List.map blank_control (take 200 (Py.strip s)))
         = Nat.min 200 (length (Py.strip s))).
Proof.
  split; [|split].
  - destruct q as [s|].
    + rewrite sanitize_query_some. split.
      * intros H. right. exists s. split; [reflexivity|].
        apply strip_nil. destruct (Py.strip s); [reflexivity | discriminate].
      * intros [H | [s' [H Hs]]]; [discriminate|].
        injection H as <-. apply strip_nil in Hs. rewrite Hs. reflexivity.
    + split; [intros _; left; reflexivity | reflexivity].
  - intros H. unfold search, bind, lift. rewrite H. reflexivity.
  - intros s -> Hs. split.
    + rewrite sanitize_query_some.
      destruct (Py.strip s) eqn:E; [|reflexivity].
      apply strip_nil in E. congruence.
    + rewrite length_map, length_take. reflexivity.
Qed.

End QueryValidation.

(** A query of one NUL character is empty once its control characters
    are trimmed, and yet it is accepted (as a query of one space). *)
Lemma sanitize_query_accepts_nul :
  ~ (sanitize_query (Some [0x00]) = Raise ValueError <-> trim_control [0x00] = []).
Proof.
  intros [_ H]. specialize (H eq_refl). vm_compute in H. discriminate.
Qed.

Example sanitize_query_250 :
  sanitize_query (Some (repeat 0x61 250)) = Ret (repeat 0x61 200).
Proof. vm_compute. reflexivity. Qed.

Example sanitize_query_blank :
  sanitize_query (Some (py "  ")) = Raise ValueError.
Proof. reflexivity. Qed.

(** ** URL construction *)

(** C10.  A template without the substring [{query}] makes [build_url]
    raise [ValueError], whatever the query. *)
Theorem build_url_requires_placeholder (template query : str) :
  ~ (exists pre post, template = pre ++ py "{query}" ++ post) ->
  build_url template query = Raise ValueError.
Proof.
  intros H. unfold build_url.
  destruct (Py.contains (py "{query}") template) eqn:E; [|reflexivity].
  apply contains_spec in E. contradiction.
Qed.

Lemma build_url_requires_placeholder_witness :
  build_url (py "https://example.com/search") (py "Ada") = Raise ValueError.
Proof.
  apply build_url_requires_placeholder.
  intros H. apply contains_spec in H. vm_compute in H. discriminate.
Defined.

(** In the [q={] branch the query is substituted as it is. *)
Lemma build_url_q_template (template query encoded : str) :
  Py.contains (py "{query}") template = true ->
  Py.contains (py "q={") template = true ->
  Urllib.urlencode_q query = Some encoded ->
  build_url template query = Ret (Py.replace template (py "{query}") query).
Proof.
  intros H1 H2 H3. unfold build_url. rewrite H1, H3, H2. reflexivity.
Qed.

(** C2.  For the template [https://example.com/search?q={query}] and the
    sanitized query [a b&c], [build_url] returns the URL with the query
    as typed, space and ampersand included, although [urlencode] has
    computed [q=a+b%26c]. *)
Theorem build_url_q_template_not_encoded :
  sanitize_query (Some (py "a b&c")) = Ret (py "a b&c")
  /\ build_url (py "https://example.com/search?q={query}") (py "a b&c")
     = Ret (py "https://example.com/search?q=a b&c")
  /\ Urllib.urlencode_q (py "a b&c") = Some (py "q=a+b%26c")
  /\ build_url (py "https://example.com/search{query}") (py "a b&c")
     = Ret (py "https://example.com/search?q=a+b%26c").
Proof. vm_compute. repeat split; reflexivity. Qed.

(** ** Record extraction *)

Section Extraction.

Context {soup_lib : SoupLib}.

Lemma selector_find_node (node : Tag) (selector : str) :
  selector_find node selector = node_value <$> selector_node node selector.
Proof.
  unfold selector_find, node_value.
  destruct (selector_node node selector) as [found|]; [|reflexivity].
  simpl. destruct (get_attr found (py "href")); [reflexivity|].
  destruct (get_attr found (py "src")); reflexivity.
Qed.

(** C7 (as amended).  For a node resolved by a field selector,
    [selector_find] returns its [href] attribute if present, else its
    [src] attribute if present, else its visible text; the field value
    is that value, collapsed to single spaces and trimmed when
    [normalize_whitespace] is enabled, attribute values included. *)
Theorem field_value_precedence
    (config : ScraperConfig) (node found : Tag) (selector : str) :
  selector_node node selector = Some found ->
  selector_find node selector = Some (node_value found)
  /\ field_value config node selector
     = (if normalize_whitespace config
        then normalize (node_value found) else node_value found)
  /\ (forall v, get_attr found (py "href") = Some v -> node_value found = v)
  /\ (forall v, get_attr found (py "href") = None ->
                get_attr found (py "src") = Some v -> node_value found = v)
  /\ (get_attr found (py "href") = None -> get_attr found (py "src") = None ->
      node_value found = get_text_strip found).
Proof.
  intros H. unfold field_value. rewrite selector_find_node, H. simpl.
  unfold node_value.
  repeat split.
  - intros v ->. reflexivity.
  - intros v -> ->. reflexivity.
  - intros -> ->. reflexivity.
Qed.

Lemma sanitize_item_safe (item : Item) :
  Forall (fun kv => ~ formula_prefixed (snd kv)) (sanitize_item item).
Proof.
  unfold sanitize_item. apply List.Forall_forall. intros kv Hin.
  apply in_map_iff in Hin. destruct Hin as [[k v] [<- _]]. simpl.
  destruct (csv_safe_cases v) as [[_ ->] | [Hn ->]]; [|exact Hn].
  intros [c [rest [E Hc]]]. injection E as <- _.
  intuition discriminate.
Qed.

(** C6.  [csv_safe] returns the value with one single quote in front
    exactly when the value begins with [+], [-], [=], [@] or TAB, and
    returns every other value as it is.  [parse_items] applies it to
    every value of every item, whatever the configuration: each item
    is the item of its node with [csv_safe] mapped over the values, so
    no value it yields begins with one of these characters. *)
Theorem csv_safe_on_every_field :
  (forall text,
      (formula_prefixed text /\ csv_safe text = 0x27 :: text)
      \/ (~ formula_prefixed text /\ csv_safe text = text))
  /\ (forall text, csv_safe text = 0x27 :: text <-> formula_prefixed text)
  /\ (forall self html target,
        parse_items self html target
        = List.map
            (fun node =>
               List.map (fun kv => (fst kv, csv_safe (snd kv)))
                        (raw_item (cfg self) node target))
            (soup_select html (item_selector target)))
  /\ (forall self html target,
        Forall (Forall (fun kv => ~ formula_prefixed (snd kv)))
               (parse_items self html target)).
Proof.
  split; [exact csv_safe_cases|]. split; [|split].
  - intros text. destruct (csv_safe_cases text) as [[H ->] | [H ->]].
    + tauto.
    + split; [intros E; symmetry in E; apply cons_neq_self in E; contradiction
             | contradiction].
  - reflexivity.
  - intros self html target. unfold parse_items.
    apply List.Forall_forall. intros item Hin.
    apply in_map_iff in Hin. destruct Hin as [node [<- _]].
    apply sanitize_item_safe.
Qed.

End Extraction.

(** Neither value is the one the specification describes.  The field
    value of a link whose [href] begins with a space is the attribute
    trimmed, not the attribute; and what [selector_find] returns for a
    text node is not collapsed, whatever the configuration. *)
Lemma field_value_normalizes_href :
  @selector_node simple_soup sample_node (py "a[href]") = Some sample_link
  /\ @field_value simple_soup defaults sample_node (py "a[href]")
     <> @claimed_field_value simple_soup defaults sample_link
  /\ @selector_node simple_soup sample_title_node (py ".title") = Some sample_title
  /\ @selector_find simple_soup sample_title_node (py ".title")
     <> Some (@claimed_field_value simple_soup defaults sample_title).
Proof.
  split; [vm_compute; reflexivity|]. split; [vm_compute; discriminate|].
  split; [vm_compute; reflexivity | vm_compute; discriminate].
Qed.

(** ** The trace *)

Lemma page_gets_app (s t : list Event) :
  page_gets (s ++ t) = page_gets s ++ page_gets t.
Proof. apply flat_map_app. Qed.

Lemma backoffs_app (s t : list Event) :
  backoffs (s ++ t) = backoffs s ++ backoffs t.
Proof. apply flat_map_app. Qed.

Lemma robots_gets_app (s t : list Event) :
  robots_gets (s ++ t) = robots_gets s ++ robots_gets t.
Proof. apply flat_map_app. Qed.

(** ** The retrying fetcher *)

Section Fetcher.

Context {url_lib : UrlParse} {robots_lib : RobotsLib}.
Variable w : World.

Lemma allowed_result (url ua : str) (st : State) :
  exists b st',
    allowed w url ua st = (Ret b, st')
    /\ session st' = session st /\ sem st' = sem st
    /\ n_draws st' = n_draws st
    /\ (trace st' = trace st
        \/ exists u, trace st' = trace st ++ [EvRobotsGet u ROBOTS_TIMEOUT]).
Proof.
  unfold allowed. destruct (urlparse url) as [scheme netloc].
  destruct scheme as [|c scheme].
  { exists true, st. run. tauto. }
  destruct netloc as [|d netloc].
  { exists true, st. run. tauto. }
  run. destruct (robots_cache st !! _) as [rp|].
  - eexists _, st. split; [reflexivity|]. tauto.
  - eexists _, _. split; [reflexivity|]. simpl.
    repeat split; try reflexivity. right. eexists. reflexivity.
Qed.

(** C4.  With [obey_robots] enabled, a URL that the policy cache
    denies makes [fetch] return [None] at once: the only thing that
    can have gone to the network is the request for the policy
    document of a host not yet cached; there is no GET of the URL, no
    backoff sleep, and the semaphore is not touched. *)
Theorem fetch_denied_without_get
    (self : PersonScraper) (url ua : str) (st : State) :
  session st = Some ua ->
  obey_robots (cfg self) = true ->
  fst (allowed w url ua st) = Ret false ->
  exists st',
    fetch w self url st = (Ret None, st')
    /\ (trace st' = trace st ++ [EvLog (LogRobotsBlocked url)]
        \/ exists robots_url,
             trace st'
             = trace st ++ [EvRobotsGet robots_url ROBOTS_TIMEOUT;
                            EvLog (LogRobotsBlocked url)])
    /\ page_gets (trace st') = page_gets (trace st)
    /\ backoffs (trace st') = backoffs (trace st)
    /\ sem st' = sem st.
Proof.
  intros Hs Ho Ha.
  destruct (allowed_result url ua st) as (b & st1 & E & _ & Hsem & _ & Ht).
  rewrite E in Ha. simpl in Ha. injection Ha as ->.
  unfold fetch. run. rewrite Hs, Ho, E. run.
  eexists. split; [reflexivity|]. simpl.
  destruct Ht as [-> | [u ->]].
  - split; [left; reflexivity|].
    rewrite page_gets_app, backoffs_app. simpl. rewrite !app_nil_r. tauto.
  - split; [right; exists u; rewrite <- app_assoc; reflexivity|].
    rewrite !page_gets_app, !backoffs_app. simpl. rewrite !app_nil_r. tauto.
Qed.

Lemma attempts_from_S (a : Z) (len : nat) :
  attempts_from a (S len) = a :: attempts_from (a + 1) len.
Proof.
  unfold attempts_from. simpl. rewrite Z.add_0_r. f_equal.
  rewrite <- seq_shift, map_map. apply map_ext. intros i. lia.
Qed.

Lemma py_range_attempts (n : Z) :
  py_range 1 (n + 1) = attempts_from 1 (Z.to_nat n).
Proof.
  unfold py_range, attempts_from. do 2 f_equal. lia.
Qed.

Lemma expected_backoffs_S (base : Q) (a : Z) (d count : nat) :
  expected_backoffs w base a d (S count)
  = backoff_delay a base (random_random w d)
    :: expected_backoffs w base (a + 1) (S d) count.
Proof.
  unfold expected_backoffs. simpl. rewrite Z.add_0_r, Nat.add_0_r. f_equal.
  rewrite <- seq_shift, map_map. apply map_ext. intros i.
  f_equal; [lia | f_equal; lia].
Qed.

Lemma fetch_attempts_retryable (self : PersonScraper) (url : str) :
  always_retryable w url ->
  forall (len : nat) (a : Z) (st : State),
    (0 < sem st)%Z ->
    (a + Z.of_nat len = max_retries (cfg self) + 1)%Z ->
    exists st' new,
      fetch_attempts w self url (attempts_from a len) st = (Ret None, st')
      /\ sem st' = sem st
      /\ trace st' = trace st ++ new
      /\ page_gets new = repeat url len
      /\ backoffs new
         = expected_backoffs w (backoff_base (cfg self)) a (n_draws st) (len - 1).
Proof.
  intros Hretry. induction len as [|len IH]; intros a st Hsem Ha.
  - exists st, []. simpl. rewrite app_nil_r. repeat split; reflexivity.
  - rewrite attempts_from_S. cbn [fetch_attempts]. run.
    destruct (Z.ltb_spec 0 (sem st)) as [_|]; [|lia]. simpl.
    destruct (Hretry (n_requests st)) as (status & ct & body & Hr & Hst).
    destruct (negb (Qeq_bool (rate_delay_s (cfg self)) 0)); simpl;
      rewrite Hr, Hst; simpl.
    all: destruct (Z.ltb_spec a (max_retries (cfg self))) as [Hlt|Hge]; simpl.
    all: match goal with
         | |- context [fetch_attempts _ _ _ (attempts_from _ _) ?s] =>
             destruct (IH (a + 1)%Z s) as (st' & new & E & Hs' & Ht & Hg & Hb);
             [simpl; lia | lia | ]
         end.
    all: rewrite E; eexists st', _; split; [reflexivity|].
    all: split; [rewrite Hs'; simpl; lia|].
    all: split; [rewrite Ht; simpl; rewrite <- !app_assoc; reflexivity|].
    all: simpl in Hb.
    all: rewrite ?page_gets_app, ?backoffs_app, Hg, Hb; simpl.
    all: split; [reflexivity|].
    all: destruct len as [|len]; [try lia|]; simpl; rewrite ?Nat.sub_0_r.
    all: try reflexivity.
    all: try (rewrite expected_backoffs_S; reflexivity).
    all: lia.
Qed.

(** The delay of a backoff sleep is [base * 2^(attempt-1)] times a
    jitter factor between 0.7 and 1.3. *)
Lemma backoff_delay_jitter (attempt : Z) (base r : Q) :
  (0 <= r)%Q -> (r < 1)%Q -> jittered base attempt (backoff_delay attempt base r).
Proof.
  intros H0 H1. exists ((7 # 10) + r * (6 # 10))%Q.
  split; [lra|]. split; [lra|]. unfold backoff_delay. reflexivity.
Qed.

Lemma expected_backoffs_jittered (base : Q) (a : Z) (d count : nat) :
  (forall k, 0 <= random_random w k /\ random_random w k < 1)%Q ->
  Forall2 (jittered base) (attempts_from a count)
          (expected_backoffs w base a d count).
Proof.
  intros Hrand. unfold attempts_from, expected_backoffs.
  induction (seq 0 count) as [|i l IH]; simpl; constructor; [|exact IH].
  apply backoff_delay_jitter; apply Hrand.
Qed.

(** C1.  What the code does when every GET of [url] is answered with
    a retryable status: with [max_retries = n] it makes [n] attempts,
    not [n+1], sleeps [n-1] times, not [n] (never for [n <= 1]), the
    sleep after attempt [a] lasting [backoff_base * 2^(a-1)] times the
    jitter, and returns [None]. *)
Theorem fetch_retryable_attempts
    (self : PersonScraper) (url ua : str) (st : State) :
  session st = Some ua ->
  (0 < sem st)%Z ->
  obey_robots (cfg self) = false \/ fst (allowed w url ua st) = Ret true ->
  always_retryable w url ->
  (forall k, 0 <= random_random w k /\ random_random w k < 1)%Q ->
  exists st' new,
    fetch w self url st = (Ret None, st')
    /\ trace st' = trace st ++ new
    /\ page_gets new = repeat url (Z.to_nat (max_retries (cfg self)))
    /\ length (backoffs new) = (Z.to_nat (max_retries (cfg self)) - 1)%nat
    /\ Forall2 (jittered (backoff_base (cfg self)))
         (attempts_from 1 (Z.to_nat (max_retries (cfg self)) - 1))
         (backoffs new).
Proof.
  intros Hs Hsem Hrobots Hretry Hrand.
  cut (exists st' new,
          fetch w self url st = (Ret None, st')
          /\ trace st' = trace st ++ new
          /\ page_gets new = repeat url (Z.to_nat (max_retries (cfg self)))
          /\ backoffs new
             = expected_backoffs w (backoff_base (cfg self)) 1 (n_draws st)
                 (Z.to_nat (max_retries (cfg self)) - 1)).
  { intros (st' & new & E & Ht & Hg & Hb). exists st', new.
    split; [exact E|]. split; [exact Ht|]. split; [exact Hg|]. rewrite Hb.
    split; [unfold expected_backoffs; rewrite length_map, length_seq; reflexivity|].
    apply expected_backoffs_jittered. exact Hrand. }
  assert (Hloop : forall st1,
            (0 < sem st1)%Z ->
            exists st' new,
              fetch_attempts w self url
                (py_range 1 (max_retries (cfg self) + 1)) st1 = (Ret None, st')
              /\ trace st' = trace st1 ++ new
              /\ page_gets new = repeat url (Z.to_nat (max_retries (cfg self)))
              /\ backoffs new
                 = expected_backoffs w (backoff_base (cfg self)) 1 (n_draws st1)
                     (Z.to_nat (max_retries (cfg self)) - 1)).
  { intros st1 H1. rewrite py_range_attempts.
    destruct (Z.le_gt_cases 0 (max_retries (cfg self))) as [Hn|Hn].
    - destruct (fetch_attempts_retryable self url Hretry
                  (Z.to_nat (max_retries (cfg self))) 1 st1 H1)
        as (st' & new & E & _ & Ht & Hg & Hb); [lia|].
      exists st', new. tauto.
    - replace (Z.to_nat (max_retries (cfg self))) with O by lia.
      exists st1, []. simpl. rewrite app_nil_r. repeat split; reflexivity. }
  unfold fetch. run. rewrite Hs.
  destruct (obey_robots (cfg self)) eqn:Ho.
  - destruct Hrobots as [Hf | Ha]; [discriminate|].
    destruct (allowed_result url ua st) as (b & st1 & E & _ & Hsem1 & Hd & Ht).
    rewrite E in Ha. simpl in Ha. injection Ha as ->. rewrite E. run.
    destruct (Hloop st1) as (st' & new & E' & Ht' & Hg & Hb); [lia|].
    rewrite E'. rewrite Hd in Hb.
    destruct Ht as [Ht | [u Ht]]; rewrite Ht in Ht'.
    + exists st', new. tauto.
    + exists st', (EvRobotsGet u ROBOTS_TIMEOUT :: new).
      split; [reflexivity|]. split; [rewrite Ht', <- app_assoc; reflexivity|].
      simpl. tauto.
  - run. destruct (Hloop st Hsem) as (st' & new & E' & Ht' & Hg & Hb).
    rewrite E'. exists st', new. tauto.
Qed.

End Fetcher.

(** ** The robots.txt cache *)

Section PolicyCache.

Context {url_lib : UrlParse} {robots_lib : RobotsLib} {soup_lib : SoupLib}.
Variable w : World.

Lemma allowed_hit (url ua scheme netloc : str) (rp : RobotFileParser)
    (st : State) :
  urlparse url = (scheme, netloc) ->
  robots_cache st !! robots_key scheme netloc = Some rp ->
  scheme <> [] -> netloc <> [] ->
  allowed w url ua st = (Ret (rp_can_fetch rp ua url), st).
Proof.
  intros Hp Hc Hs Hn. unfold allowed. rewrite Hp.
  destruct scheme as [|c scheme]; [congruence|].
  destruct netloc as [|d netloc]; [congruence|].
  run. rewrite Hc. reflexivity.
Qed.

Lemma allowed_miss (url ua scheme netloc : str) (st : State) :
  urlparse url = (scheme, netloc) ->
  robots_cache st !! robots_key scheme netloc = None ->
  scheme <> [] -> netloc <> [] ->
  allowed w url ua st
  = (Ret (rp_can_fetch
            (robots_parser
               (http w (n_requests st) (Urllib.urlunparse_robots scheme netloc)))
            ua url),
     {| robots_cache :=
          <[robots_key scheme netloc :=
              robots_parser
                (http w (n_requests st)
                      (Urllib.urlunparse_robots scheme netloc))]>
            (robots_cache st);
        session := session st; sem := sem st;
        n_requests := S (n_requests st); n_draws := n_draws st;
        trace := trace st
                 ++ [EvRobotsGet (Urllib.urlunparse_robots scheme netloc)
                                 ROBOTS_TIMEOUT] |}).
Proof.
  intros Hp Hc Hs Hn. unfold allowed. rewrite Hp.
  destruct scheme as [|c scheme]; [congruence|].
  destruct netloc as [|d netloc]; [congruence|].
  run. rewrite Hc. reflexivity.
Qed.

(** [allowed] never drops or replaces an entry of the cache. *)
Lemma allowed_keeps_entries (url ua : str) (st : State) :
  exists b st',
    allowed w url ua st = (Ret b, st')
    /\ forall key rp, robots_cache st !! key = Some rp ->
                      robots_cache st' !! key = Some rp.
Proof.
  destruct (urlparse url) as [scheme netloc] eqn:Hp.
  destruct (decide (scheme = [])) as [->|Hs].
  { exists true, st. unfold allowed. rewrite Hp. split; [reflexivity | auto]. }
  destruct (decide (netloc = [])) as [->|Hn].
  { exists true, st. unfold allowed. rewrite Hp.
    split; [destruct scheme; reflexivity | auto]. }
  destruct (robots_cache st !! robots_key scheme netloc) as [rp|] eqn:Hc.
  - eexists _, st.
    split; [exact (allowed_hit url ua scheme netloc rp st Hp Hc Hs Hn) | auto].
  - eexists _, _.
    split; [exact (allowed_miss url ua scheme netloc st Hp Hc Hs Hn)|].
    simpl. intros key rp Hk.
    rewrite lookup_insert_ne; [exact Hk | congruence].
Qed.

Lemma allowed_in_turn_keeps_entries (calls : list (str * str)) (st : State) :
  exists bs st',
    allowed_in_turn w calls st = (Ret bs, st')
    /\ forall key rp, robots_cache st !! key = Some rp ->
                      robots_cache st' !! key = Some rp.
Proof.
  revert st. induction calls as [|[url ua] calls IH]; intros st.
  - exists [], st. split; [reflexivity | auto].
  - destruct (allowed_keeps_entries url ua st) as (b & st1 & E & H1).
    destruct (IH st1) as (bs & st2 & E2 & H2).
    exists (b :: bs), st2. split; [|auto].
    cbn [allowed_in_turn]. unfold bind at 1. rewrite E.
    unfold bind at 1. rewrite E2. reflexivity.
Qed.

Lemma robots_parser_default (r : HttpResult) :
  ~ robots_document r -> robots_parser r = empty_policy.
Proof.
  intros H. unfold robots_parser, empty_policy.
  destruct r as [f | status ct [f | text]]; try reflexivity.
  - destruct status as [|p|p]; try reflexivity.
    repeat (destruct p as [p|p|]; try reflexivity).
  - destruct (decide (status = 200%Z)) as [->|Hne].
    + exfalso. apply H. exists ct, text. reflexivity.
    + destruct status as [|p|p]; try reflexivity.
      repeat (destruct p as [p|p|]; try reflexivity). congruence.
Qed.

Lemma robots_parser_parsed (ct text : str) (rp : RobotFileParser) :
  rp_parse rp_new (splitlines text) = (rp, None) ->
  robots_parser (HttpResponse 200 ct (inr text)) = rp.
Proof. intros H. unfold robots_parser. rewrite H. reflexivity. Qed.

Lemma robots_parser_failed (ct text : str) (rp : RobotFileParser) (e : exn) :
  rp_parse rp_new (splitlines text) = (rp, Some e) ->
  robots_parser (HttpResponse 200 ct (inr text)) = fst (rp_parse rp []).
Proof. intros H. unfold robots_parser. rewrite H. reflexivity. Qed.

(** Once a parser is cached for a host, every later query for the
    host is answered by it, after any other queries, and fetches
    nothing. *)
Lemma allowed_cached_later (scheme netloc : str) (rp : RobotFileParser)
    (st1 : State) (calls : list (str * str)) (url2 ua2 : str) :
  scheme <> [] -> netloc <> [] ->
  robots_cache st1 !! robots_key scheme netloc = Some rp ->
  urlparse url2 = (scheme, netloc) ->
  exists bs st2,
    allowed_in_turn w calls st1 = (Ret bs, st2)
    /\ allowed w url2 ua2 st2 = (Ret (rp_can_fetch rp ua2 url2), st2).
Proof.
  intros Hs Hn Hc Hp2.
  destruct (allowed_in_turn_keeps_entries calls st1) as (bs & st2 & E & Hk).
  exists bs, st2. split; [exact E|].
  apply (allowed_hit url2 ua2 scheme netloc); try assumption.
  apply Hk. exact Hc.
Qed.

(** The first query for a host whose policy is not cached sends one
    request for [scheme://netloc/robots.txt], with the fixed timeout
    of 5 seconds, and caches a parser for the host.  When the request
    fails, the status is not 200 or the body cannot be read, the
    cached parser is that of an empty policy, which allows every URL;
    when the document is parsed without an exception it is the parser
    of the document.  After any later queries, a query for the same
    scheme and host is answered by the cached parser and leaves the
    state as it is: nothing is fetched again. *)
Theorem robots_fetched_once_then_cached
    (url ua scheme netloc : str) (st : State) :
  (forall ua' url', rp_can_fetch empty_policy ua' url' = true) ->
  urlparse url = (scheme, netloc) ->
  scheme <> [] -> netloc <> [] ->
  robots_cache st !! robots_key scheme netloc = None ->
  let robots_url := Urllib.urlunparse_robots scheme netloc in
  exists st1 rp,
    allowed w url ua st = (Ret (rp_can_fetch rp ua url), st1)
    /\ trace st1 = trace st ++ [EvRobotsGet robots_url ROBOTS_TIMEOUT]
    /\ ROBOTS_TIMEOUT = 5%Q
    /\ robots_cache st1 !! robots_key scheme netloc = Some rp
    /\ (~ robots_document (http w (n_requests st) robots_url) ->
        forall ua' url', rp_can_fetch rp ua' url' = true)
    /\ (forall ct text rp0,
          http w (n_requests st) robots_url = HttpResponse 200 ct (inr text) ->
          rp_parse rp_new (splitlines text) = (rp0, None) -> rp = rp0)
    /\ forall calls url2 ua2,
         urlparse url2 = (scheme, netloc) ->
         exists bs st2,
           allowed_in_turn w calls st1 = (Ret bs, st2)
           /\ allowed w url2 ua2 st2 = (Ret (rp_can_fetch rp ua2 url2), st2).
Proof.
  intros Hempty Hp Hs Hn Hc robots_url.
  eexists _, _.
  split; [exact (allowed_miss url ua scheme netloc st Hp Hc Hs Hn)|]. simpl.
  split; [reflexivity|]. split; [reflexivity|].
  split; [apply lookup_insert_eq|]. split; [|split].
  - intros Hdoc ua' url'. fold robots_url.
    rewrite (robots_parser_default _ Hdoc). apply Hempty.
  - intros ct text rp0 Hr Hparse. fold robots_url. rewrite Hr.
    apply robots_parser_parsed. exact Hparse.
  - intros calls url2 ua2 Hp2.
    apply (allowed_cached_later scheme netloc); try assumption.
    simpl. apply lookup_insert_eq.
Qed.

(** C5.  The claim fails where the policy document cannot be parsed.
    When [rp.parse] raises on the lines of a robots.txt that came
    with status 200, the handler calls [rp.parse([])] on the parser
    the failed call was filling, not on a new one.  The parser cached
    for the host is therefore that half-filled parser: the entries
    read before the failing line stay in it and decide this query and
    every later one for the host, without a second fetch. *)
Theorem robots_parse_failure_keeps_rules
    (url ua scheme netloc ct text : str) (rp1 : RobotFileParser) (e : exn)
    (st : State) :
  urlparse url = (scheme, netloc) ->
  scheme <> [] -> netloc <> [] ->
  robots_cache st !! robots_key scheme netloc = None ->
  http w (n_requests st) (Urllib.urlunparse_robots scheme netloc)
  = HttpResponse 200 ct (inr text) ->
  rp_parse rp_new (splitlines text) = (rp1, Some e) ->
  exists st1,
    allowed w url ua st = (Ret (rp_can_fetch (fst (rp_parse rp1 [])) ua url), st1)
    /\ trace st1
       = trace st
         ++ [EvRobotsGet (Urllib.urlunparse_robots scheme netloc) ROBOTS_TIMEOUT]
    /\ robots_cache st1 !! robots_key scheme netloc = Some (fst (rp_parse rp1 []))
    /\ forall calls url2 ua2,
         urlparse url2 = (scheme, netloc) ->
         exists bs st2,
           allowed_in_turn w calls st1 = (Ret bs, st2)
           /\ allowed w url2 ua2 st2
              = (Ret (rp_can_fetch (fst (rp_parse rp1 [])) ua2 url2), st2).
Proof.
  intros Hp Hs Hn Hc Hr Hparse.
  pose proof (allowed_miss url ua scheme netloc st Hp Hc Hs Hn) as E.
  rewrite Hr, (robots_parser_failed ct text rp1 e Hparse) in E.
  eexists. split; [exact E|]. simpl.
  split; [reflexivity|]. split; [apply lookup_insert_eq|].
  intros calls url2 ua2 Hp2.
  apply (allowed_cached_later scheme netloc); try assumption.
  simpl. apply lookup_insert_eq.
Qed.

(** *** One fetch per host *)






















(** Run without interruption, the coroutine is the function. *)
Lemma allowed_as_steps (url ua : str) (st : State) :
  let '(t1, st1) := step w (Pending url ua) st in
  let '(t2, st2) := step w t1 st1 in
  exists b, t2 = Finished b /\ allowed w url ua st = (Ret b, st2).
Proof.
  unfold allowed. simpl. destruct (urlparse url) as [scheme netloc].
  destruct scheme as [|c scheme]; [eexists; split; reflexivity|].
  destruct netloc as [|d netloc]; [eexists; split; reflexivity|].
  run. destruct (robots_cache st !! _) as [rp|];
    simpl; eexists; split; reflexivity.
Qed.


End PolicyCache.


(** ** The misspelt flag *)

Section Alias.

Context {url_lib : UrlParse} {robots_lib : RobotsLib} {soup_lib : SoupLib}.
Variable w : World.

Lemma bind_ext {A B} (m1 m2 : M A) (k1 k2 : A -> M B) :
  (forall st, m1 st = m2 st) -> (forall a st, k1 a st = k2 a st) ->
  forall st, bind m1 k1 st = bind m2 k2 st.
Proof.
  intros Hm Hk st. unfold bind. rewrite Hm.
  destruct (m2 st) as [[a|e|] st']; [apply Hk | reflexivity | reflexivity].
Qed.

Lemma for_each_ext {A} (xs : list A) (f g : A -> M unit) :
  (forall x st, f x st = g x st) ->
  forall st, for_each xs f st = for_each xs g st.
Proof.
  intros H. induction xs as [|x xs IH]; intros st; simpl; [reflexivity|].
  apply bind_ext; [apply H | intros _; exact IH].
Qed.

Variables s1 s2 : PersonScraper.
Hypothesis same_targets : targets s1 = targets s2.
Hypothesis same_settings : forget_alias (cfg s1) = forget_alias (cfg s2).

Lemma fetch_attempts_alias (url : str) (attempts : list Z) :
  fetch_attempts w s1 url attempts = fetch_attempts w s2 url attempts.
Proof.
  pose proof same_settings as Hsame. injection Hsame as _ _ Hread _ Hmax Hbase _ _ Hrate _ _ _ _.
  induction attempts as [|attempt rest IH]; cbn [fetch_attempts]; [reflexivity|].
  unfold log_failure. rewrite IH, Hread, Hmax, Hbase, Hrate. reflexivity.
Qed.

Lemma fetch_alias (url : str) : fetch w s1 url = fetch w s2 url.
Proof.
  unfold fetch. rewrite fetch_attempts_alias.
  pose proof same_settings as Hsame. injection Hsame as _ _ _ _ Hmax _ _ Hobey _ _ _ _ _.
  rewrite Hmax, Hobey. reflexivity.
Qed.

Lemma parse_items_alias (html : str) (target : Target) :
  parse_items s1 html target = parse_items s2 html target.
Proof.
  unfold parse_items, raw_item, field_value.
  pose proof same_settings as Hsame. injection Hsame as _ _ _ _ _ _ _ _ _ _ _ Hnorm _.
  rewrite Hnorm. reflexivity.
Qed.

Lemma search_alias (query : option str) (st : State) :
  search w s1 query st = search w s2 query st.
Proof.
  unfold search. revert st.
  apply bind_ext; [reflexivity | intros q].
  apply bind_ext; [reflexivity | intros _].
  rewrite same_targets. apply for_each_ext. intros target.
  apply bind_ext; [reflexivity | intros url].
  pose proof same_settings as Hsame. injection Hsame as _ _ _ _ _ _ Huas _ _ _ _ _ Hint.
  rewrite Huas, Hint.
  apply bind_ext; [reflexivity | intros _].
  rewrite fetch_alias.
  apply bind_ext; [reflexivity | intros html st].
  destruct html as [[|c html]|]; try reflexivity.
  rewrite parse_items_alias. reflexivity.
Qed.

Lemma aenter_alias (st : State) : aenter w s1 st = aenter w s2 st.
Proof.
  unfold aenter. injection same_settings as _ _ _ _ _ _ Huas _ _ _ _ _ _.
  rewrite Huas. reflexivity.
Qed.

End Alias.

Section AliasClaim.

Context {url_lib : UrlParse} {robots_lib : RobotsLib} {soup_lib : SoupLib}.

(** C9.  A configuration built with the misspelt flag
    [busqueda_intesiva] set to [True] gives a scraper whose
    [busqueda_intensiva] is [True], and which enters its session and
    searches, for every query, target list, world and state, exactly
    as the scraper built from the same settings with
    [busqueda_intensiva=True]; the two constructors also fail alike
    (on a negative [concurrency]). *)
Theorem misspelt_flag_means_intensive
    (w : World) (config : ScraperConfig) (tgts : list Target) (st0 : State) :
  busqueda_intesiva config = Some true ->
  match PersonScraper_init config tgts st0,
        PersonScraper_init (intensive config) tgts st0 with
  | (Ret legacy, st1), (Ret scraper, st2) =>
      busqueda_intensiva (cfg legacy) = true
      /\ st1 = st2
      /\ forall query url st,
           aenter w legacy st = aenter w scraper st
           /\ fetch w legacy url st = fetch w scraper url st
           /\ search w legacy query st = search w scraper query st
  | (Raise e1, st1), (Raise e2, st2) => e1 = e2 /\ st1 = st2
  | _, _ => False
  end.
Proof.
  intros H. unfold PersonScraper_init, map_alias. rewrite H. simpl.
  destruct (concurrency config <? 0)%Z; simpl; [split; reflexivity|].
  split; [reflexivity|]. split; [reflexivity|].
  intros query url st. split; [|split].
  - apply aenter_alias. reflexivity.
  - match goal with
    | |- fetch w ?a url st = fetch w ?b url st =>
        rewrite (fetch_alias w a b eq_refl url)
    end.
    reflexivity.
  - apply search_alias; reflexivity.
Qed.

End AliasClaim.

(** ** The theorems at concrete inputs *)

Lemma field_value_precedence_witness :
  @selector_node simple_soup sample_node (py "a[href]") = Some sample_link
  /\ @selector_find simple_soup sample_node (py "a[href]") = Some (py " /u/ada")
  /\ @field_value simple_soup defaults sample_node (py "a[href]") = py "/u/ada".
Proof.
  assert (H : @selector_node simple_soup sample_node (py "a[href]")
              = Some sample_link) by (vm_compute; reflexivity).
  split; [exact H|].
  destruct (@field_value_precedence simple_soup defaults sample_node
              sample_link (py "a[href]") H) as [H1 [H2 _]].
  split; [rewrite H1 | rewrite H2]; vm_compute; reflexivity.
Defined.

Lemma fetch_retryable_attempts_witness :
  exists st' new,
    @fetch simple_url simple_robots unavailable
      {| cfg := two_retries; targets := DEFAULT_TARGETS |} search_url entered
    = (Ret None, st')
    /\ trace st' = trace entered ++ new
    /\ page_gets new = [search_url; search_url]
    /\ length (backoffs new) = 1%nat
    /\ Forall2 (jittered (1 # 2)) [1%Z] (backoffs new).
Proof.
  apply (@fetch_retryable_attempts simple_url simple_robots unavailable
           {| cfg := two_retries; targets := DEFAULT_TARGETS |}
           search_url DEFAULT_UA entered).
  - reflexivity.
  - simpl. lia.
  - left. reflexivity.
  - intros k. eexists _, _, _. split; reflexivity.
  - intros k. simpl. split; lra.
Defined.

Lemma fetch_denied_without_get_witness :
  fst (@allowed simple_url simple_robots guarded private_url DEFAULT_UA entered)
  = Ret false
  /\ exists st',
       @fetch simple_url simple_robots guarded
         {| cfg := defaults; targets := DEFAULT_TARGETS |} private_url entered
       = (Ret None, st')
       /\ page_gets (trace st') = [].
Proof.
  assert (H : fst (@allowed simple_url simple_robots guarded private_url
                     DEFAULT_UA entered) = Ret false)
    by (vm_compute; reflexivity).
  split; [exact H|].
  destruct (@fetch_denied_without_get simple_url simple_robots guarded
              {| cfg := defaults; targets := DEFAULT_TARGETS |}
              private_url DEFAULT_UA entered eq_refl eq_refl H)
    as (st' & E & _ & Hg & _).
  exists st'. split; [exact E | exact Hg].
Defined.

Lemma robots_fetched_once_then_cached_witness :
  exists st1 rp,
    @allowed simple_url simple_robots unavailable search_url DEFAULT_UA entered
    = (Ret (Simple.can_fetch rp DEFAULT_UA search_url), st1)
    /\ trace st1 = [EvRobotsGet (py "https://example.com/robots.txt") 5]
    /\ (forall ua' url', Simple.can_fetch rp ua' url' = true)
    /\ @allowed simple_url simple_robots unavailable private_url DEFAULT_UA st1
       = (Ret (Simple.can_fetch rp DEFAULT_UA private_url), st1).
Proof.
  destruct (@robots_fetched_once_then_cached simple_url simple_robots
              unavailable search_url DEFAULT_UA
              (py "https") (py "example.com") entered)
    as (st1 & rp & E & Ht & _ & _ & Hperm & _ & Hnext).
  - intros ua' url'. reflexivity.
  - vm_compute. reflexivity.
  - discriminate.
  - discriminate.
  - reflexivity.
  - exists st1, rp. split; [exact E|]. split; [exact Ht|]. split.
    + apply Hperm. intros (ct & text & Hdoc). vm_compute in Hdoc. discriminate.
    + destruct (Hnext [] private_url DEFAULT_UA) as (bs & st2 & E2 & Ha).
      * vm_compute. reflexivity.
      * injection E2 as _ <-. exact Ha.
Defined.

Lemma robots_parse_failure_keeps_rules_witness :
  snd (Simple.parse_robots Simple.fresh (Simple.splitlines malformed_robots_txt))
  = Some ValueError
  /\ exists st1 rp,
       @allowed simple_url simple_robots malformed_policy search_url DEFAULT_UA
         entered
       = (Ret false, st1)
       /\ trace st1 = [EvRobotsGet (py "https://example.com/robots.txt") 5]
       /\ robots_cache st1 !! py "https://example.com" = Some rp
       /\ Simple.can_fetch rp DEFAULT_UA private_url = false
       /\ @allowed simple_url simple_robots malformed_policy private_url
            DEFAULT_UA st1
          = (Ret false, st1).
Proof.
  split; [vm_compute; reflexivity|].
  destruct (@robots_parse_failure_keeps_rules simple_url simple_robots
              malformed_policy search_url DEFAULT_UA
              (py "https") (py "example.com") (py "text/plain")
              malformed_robots_txt
              (fst (Simple.parse_robots Simple.fresh
                      (Simple.splitlines malformed_robots_txt)))
              ValueError entered)
    as (st1 & E & Ht & Hc & Hnext).
  - vm_compute. reflexivity.
  - discriminate.
  - discriminate.
  - reflexivity.
  - reflexivity.
  - vm_compute. reflexivity.
  - eexists st1, _. split; [exact E|]. split; [exact Ht|].
    split; [exact Hc|]. split; [vm_compute; reflexivity|].
    destruct (Hnext [] private_url DEFAULT_UA) as (bs & st2 & E2 & Ha).
    + vm_compute. reflexivity.
    + injection E2 as _ <-. exact Ha.
Defined.


Lemma misspelt_flag_means_intensive_witness :
  busqueda_intesiva legacy_flag = Some true
  /\ busqueda_intensiva (map_alias legacy_flag) = true
  /\ @search simple_url simple_robots simple_soup guarded
       {| cfg := map_alias legacy_flag; targets := DEFAULT_TARGETS |}
       (Some (py "Ada Lovelace")) entered
     = @search simple_url simple_robots simple_soup guarded
         {| cfg := intensive legacy_flag; targets := DEFAULT_TARGETS |}
         (Some (py "Ada Lovelace")) entered.
Proof.
  pose proof (@misspelt_flag_means_intensive simple_url simple_robots simple_soup
                guarded legacy_flag DEFAULT_TARGETS (@initial_state simple_robots)
                eq_refl) as H.
  simpl in H. destruct H as (Hflag & _ & H).
  split; [reflexivity|]. split; [exact Hflag|].
  apply (H (Some (py "Ada Lovelace")) [] entered).
Defined.

Example search_unavailable_gives_up :
  page_gets (trace (snd
    (@search simple_url simple_robots simple_soup unavailable
       {| cfg := two_retries; targets := DEFAULT_TARGETS |}
       (Some (py "Ada Lovelace")) entered)))
  = [py "https://example.com/search?q=Ada+Lovelace";
     py "https://example.com/search?q=Ada+Lovelace"].
Proof. vm_compute. reflexivity. Qed.

(** Two result nodes with every field, and an empty one that is dropped. *)
Example search_streams_two_items :
  yields (trace (snd
    (@search simple_url simple_robots simple_soup serving
       {| cfg := defaults; targets := DEFAULT_TARGETS |}
       (Some (py "Ada Lovelace")) entered)))
  = [ [(py "source", py "PeopleSearchExample"); (py "title", py "Countess");
       (py "full_name", py "Ada Lovelace"); (py "username", py "'@ada");
       (py "link", py "/u/ada"); (py "snippet", py "'=SUM(A1)")];
      [(py "source", py "PeopleSearchExample"); (py "title", py "Mr");
       (py "full_name", py "Charles Babbage"); (py "username", py "cb");
       (py "link", py "/u/cb"); (py "snippet", py "engines")] ].
Proof. vm_compute. reflexivity. Qed.

Example quote_plus_utf8 :
  Urllib.quote_plus [0x63; 0x61; 0x66; 0xE9; 0x20; 0x20AC; 0x1F600; 0x7E]
  = Some (py "caf%C3%A9+%E2%82%AC%F0%9F%98%80~")
  /\ Urllib.quote_plus [0xD800] = None.
Proof. vm_compute. split; reflexivity. Qed.

Example build_url_branches :
  build_url (py "https://example.com/search{query}") (py "Ada Lovelace")
  = Ret (py "https://example.com/search?q=Ada+Lovelace")
  /\ build_url (py "https://example.com/s?lang=en{query}") (py "Ada")
     = Ret (py "https://example.com/s?lang=en&q=Ada")
  /\ build_url (py "https://example.com/s?{query}") (py "Ada")
     = Ret (py "https://example.com/s?q=Ada").
Proof. vm_compute. repeat split; reflexivity. Qed.

(** * Further properties *)

Local Notation "x <- m ;; k" := (bind m (fun x => k))
  (at level 100, m at next level, right associativity).
Local Notation "m ;;; k" := (bind m (fun _ => k))
  (at level 100, right associativity).

(** ** Accepted queries *)

Lemma blank_control_clean (c : N) : is_control (blank_control c) = false.
Proof.
  unfold blank_control. destruct (is_control c) eqn:E; [reflexivity | exact E].
Qed.

(** X1.  A query that [sanitize_query] accepts comes back with at
    least one and at most 200 characters, none of them a control
    character. *)
Theorem sanitize_query_result_clean (q : option str) (r : str) :
  sanitize_query q = Ret r ->
  r <> [] /\ (length r <= 200)%nat /\ Forall (fun c => is_control c = false) r.
Proof.
  destruct q as [s|]; [|discriminate]. rewrite sanitize_query_some.
  destruct (Py.strip s) as [|c l] eqn:E; [discriminate|].
  intros H. injection H as <-. split; [discriminate|]. split.
  - change (length (List.map blank_control (take 200 (c :: l))) <= 200)%nat.
    rewrite length_map, length_take. lia.
  - change (Forall (fun c => is_control c = false)
                   (List.map blank_control (take 200 (c :: l)))).
    apply List.Forall_forall. intros x Hx. apply in_map_iff in Hx.
    destruct Hx as [y [<- _]]. apply blank_control_clean.
Qed.

Lemma sanitize_query_result_clean_witness :
  sanitize_query (Some (py "  Ada Lovelace ")) = Ret (py "Ada Lovelace")
  /\ py "Ada Lovelace" <> []
  /\ (length (py "Ada Lovelace") <= 200)%nat
  /\ Forall (fun c => is_control c = false) (py "Ada Lovelace").
Proof.
  assert (H : sanitize_query (Some (py "  Ada Lovelace ")) = Ret (py "Ada Lovelace"))
    by (vm_compute; reflexivity).
  split; [exact H|].
  exact (sanitize_query_result_clean _ _ H).
Defined.

Lemma lstrip_trimmed (s : str) (c : N) (r : str) :
  s = c :: r -> Py.isspace c = false -> Py.lstrip s = s.
Proof. intros -> H. simpl. rewrite H. reflexivity. Qed.

Lemma strip_trimmed (s : str) : trimmed s -> Py.strip s = s.
Proof.
  destruct s as [|c r]; [reflexivity|]. intros [Hc Hlast].
  unfold Py.strip, Py.rstrip.
  rewrite (lstrip_trimmed (c :: r) c r eq_refl Hc).
  destruct (rev (c :: r)) as [|d t] eqn:E.
  - apply (f_equal (@rev N)) in E. rewrite rev_involutive in E. discriminate.
  - assert (Hs : c :: r = rev t ++ [d]).
    { apply (f_equal (@rev N)) in E. rewrite rev_involutive in E. exact E. }
    assert (Hd : Py.isspace d = false).
    { apply Hlast. rewrite Hs. apply last_snoc. }
    rewrite (lstrip_trimmed (d :: t) d t eq_refl Hd), <- E.
    apply rev_involutive.
Qed.

(** X2.  A query that is already clean passes unchanged: no whitespace
    at either end, at most 200 characters, no control character. *)
Theorem sanitize_query_keeps_clean (s : str) :
  s <> [] -> trimmed s -> (length s <= 200)%nat ->
  Forall (fun c => is_control c = false) s ->
  sanitize_query (Some s) = Ret s.
Proof.
  intros Hne Ht Hlen Hctl. rewrite sanitize_query_some, (strip_trimmed s Ht).
  destruct s as [|c r]; [congruence|]. f_equal.
  rewrite firstn_all2 by exact Hlen.
  clear Hne Ht Hlen. induction Hctl as [|x l Hx _ IH]; [reflexivity|].
  simpl. unfold blank_control at 1. rewrite Hx, IH. reflexivity.
Qed.

Lemma sanitize_query_keeps_clean_witness :
  sanitize_query (Some (py "Ada Lovelace")) = Ret (py "Ada Lovelace").
Proof.
  apply sanitize_query_keeps_clean.
  - discriminate.
  - split; [reflexivity|]. intros d H. vm_compute in H. injection H as <-.
    reflexivity.
  - simpl. lia.
  - repeat constructor.
Defined.

(** ** CSV cells *)

(** X3.  Sanitizing twice is sanitizing once: quotes do not pile up. *)
Theorem csv_safe_idempotent (text : str) :
  csv_safe (csv_safe text) = csv_safe text.
Proof.
  destruct (csv_safe_cases text) as [[_ E] | [_ E]]; rewrite E; [|exact E].
  reflexivity.
Qed.

(** ** The encoded query *)

Lemma log2_lt_of_lt_pow2 (a n : N) : 0 < n -> a < 2 ^ n -> N.log2 a < n.
Proof.
  intros Hn Ha. destruct (N.eq_dec a 0) as [->|H0]; [exact Hn|].
  apply N.log2_lt_pow2; [lia | exact Ha].
Qed.

Lemma lor_lt_pow2 (a b n : N) : a < 2 ^ n -> b < 2 ^ n -> N.lor a b < 2 ^ n.
Proof.
  intros Ha Hb. destruct (N.eq_dec n 0) as [->|Hn].
  - change (2 ^ 0) with 1 in *. replace a with 0 by lia. replace b with 0 by lia.
    reflexivity.
  - destruct (N.eq_dec (N.lor a b) 0) as [E|E]; [rewrite E; lia|].
    apply N.log2_lt_pow2; [lia|]. rewrite N.log2_lor.
    apply N.max_lub_lt; apply log2_lt_of_lt_pow2; lia.
Qed.

Lemma land_3F_lt (c : N) : N.land c 0x3F < 64.
Proof.
  change 0x3F with (N.ones 6). rewrite N.land_ones.
  apply N.mod_lt. discriminate.
Qed.

Lemma continuation_byte (x : N) : N.lor 0x80 (N.land x 0x3F) < 256.
Proof.
  apply (lor_lt_pow2 _ _ 8); [reflexivity|].
  pose proof (land_3F_lt x). change (2 ^ 8) with 256. lia.
Qed.

Lemma lead_byte (l c k bound : N) :
  l < 256 -> c < bound * 2 ^ k -> bound <= 256 ->
  N.lor l (N.shiftr c k) < 256.
Proof.
  intros Hl Hc Hb. apply (lor_lt_pow2 _ _ 8); [exact Hl|].
  rewrite N.shiftr_div_pow2. change (2 ^ 8) with 256.
  apply N.lt_le_trans with bound; [|exact Hb].
  apply N.Div0.div_lt_upper_bound. lia.
Qed.

Lemma utf8_bytes (c : N) (bs : list N) :
  Urllib.utf8 c = Some bs -> Forall (fun b => b < 256) bs.
Proof.
  unfold Urllib.utf8.
  destruct (N.ltb_spec c 0x80) as [H1|H1].
  { intros H. injection H as <-. repeat constructor. lia. }
  destruct (N.ltb_spec c 0x800) as [H2|H2].
  { intros H. injection H as <-. repeat constructor.
    - apply (lead_byte _ _ 6 32); [reflexivity | exact H2 | lia].
    - apply continuation_byte. }
  destruct ((0xD800 <=? c) && (c <=? 0xDFFF)); [discriminate|].
  destruct (N.ltb_spec c 0x10000) as [H3|H3].
  { intros H. injection H as <-. repeat constructor.
    - apply (lead_byte _ _ 12 16); [reflexivity | exact H3 | lia].
    - apply continuation_byte.
    - apply continuation_byte. }
  destruct (N.ltb_spec c 0x110000) as [H4|H4]; [|discriminate].
  intros H. injection H as <-. repeat constructor.
  - apply (lead_byte _ _ 18 5);
      [reflexivity | apply N.lt_trans with 0x110000; [exact H4 | reflexivity] | lia].
  - apply continuation_byte.
  - apply continuation_byte.
  - apply continuation_byte.
Qed.

Lemma encode_utf8_bytes (s : str) (bs : list N) :
  Urllib.encode_utf8 s = Some bs -> Forall (fun b => b < 256) bs.
Proof.
  revert bs. induction s as [|c s IH]; simpl; intros bs H.
  - injection H as <-. constructor.
  - destruct (Urllib.utf8 c) as [b1|] eqn:E1; [|discriminate].
    destruct (Urllib.encode_utf8 s) as [b2|] eqn:E2; [|discriminate].
    injection H as <-. apply Forall_app. split; [eapply utf8_bytes; eassumption|].
    apply IH. reflexivity.
Qed.

Lemma hex_digit_safe (n : N) : n < 16 -> Urllib.always_safe (Urllib.hex_digit n) = true.
Proof.
  intros H. unfold Urllib.hex_digit, Urllib.always_safe.
  destruct (N.ltb_spec n 10) as [Hd|Hd].
  - assert (H1 : (0x30 <=? 0x30 + n) = true) by (apply N.leb_le; lia).
    assert (H2 : (0x30 + n <=? 0x39) = true) by (apply N.leb_le; lia).
    rewrite H1, H2. cbn [andb]. rewrite orb_true_r. reflexivity.
  - assert (H1 : (0x41 <=? 0x37 + n) = true) by (apply N.leb_le; lia).
    assert (H2 : (0x37 + n <=? 0x5A) = true) by (apply N.leb_le; lia).
    rewrite H1, H2. reflexivity.
Qed.

Lemma quote_plus_byte_safe (b : N) :
  b < 256 -> Forall url_safe (Urllib.quote_plus_byte b).
Proof.
  intros Hb. unfold Urllib.quote_plus_byte, Urllib.percent, url_safe.
  destruct (b =? 0x20).
  { constructor; [right; right; reflexivity | constructor]. }
  destruct (Urllib.always_safe b) eqn:E.
  { constructor; [left; exact E | constructor]. }
  constructor; [right; left; reflexivity|].
  constructor.
  { left. apply hex_digit_safe. rewrite N.shiftr_div_pow2.
    apply N.Div0.div_lt_upper_bound. change (2 ^ 4 * 16) with 256. exact Hb. }
  constructor; [|constructor].
  left. apply hex_digit_safe. change 0xF with (N.ones 4).
  rewrite N.land_ones. apply N.mod_lt. discriminate.
Qed.

Lemma quote_plus_safe (s enc : str) :
  Urllib.quote_plus s = Some enc -> Forall url_safe enc.
Proof.
  unfold Urllib.quote_plus.
  destruct (Urllib.encode_utf8 s) as [bs|] eqn:E; [|discriminate].
  intros H. injection H as <-. apply encode_utf8_bytes in E.
  induction E as [|b l Hb _ IH]; simpl; [constructor|].
  apply Forall_app. split; [apply quote_plus_byte_safe; exact Hb | exact IH].
Qed.

Lemma utf8_total (c : N) :
  is_surrogate c = false -> c < 0x110000 -> exists bs, Urllib.utf8 c = Some bs.
Proof.
  intros Hs Hc. unfold Urllib.utf8. unfold is_surrogate in Hs. rewrite Hs.
  destruct (c <? 0x80); [eauto|]. destruct (c <? 0x800); [eauto|].
  destruct (c <? 0x10000); [eauto|].
  destruct (N.ltb_spec c 0x110000); [eauto | lia].
Qed.

Lemma quote_plus_total (s : str) :
  Forall (fun c => is_surrogate c = false /\ c < 0x110000) s ->
  exists enc, Urllib.quote_plus s = Some enc.
Proof.
  intros H. unfold Urllib.quote_plus.
  assert (He : exists bs, Urllib.encode_utf8 s = Some bs).
  { induction H as [|c l [Hs Hc] _ [bs IH]]; simpl; [eauto|].
    destruct (utf8_total c Hs Hc) as [b ->]. rewrite IH. eauto. }
  destruct He as [bs ->]. eauto.
Qed.

(** X4.  For a template with the placeholder and without [q={], and a
    query of encodable characters, [build_url] removes the placeholder
    and appends the query as one parameter: nothing, [&] or [?], then
    [q=] and the encoded query, in which every character is a letter, a
    digit, one of [_.-~], [%] or [+]. *)
Theorem build_url_appends_encoded_query (template query : str) :
  Py.contains (py "{query}") template = true ->
  Py.contains (py "q={") template = false ->
  Forall (fun c => is_surrogate c = false /\ c < 0x110000) query ->
  exists sep enc,
    build_url template query
    = Ret (Py.replace template (py "{query}") [] ++ sep ++ py "q=" ++ enc)
    /\ (sep = [] \/ sep = py "&" \/ sep = py "?")
    /\ Urllib.quote_plus query = Some enc
    /\ Forall url_safe enc.
Proof.
  intros H1 H2 Hq. destruct (quote_plus_total query Hq) as [enc He].
  unfold build_url, Urllib.urlencode_q. rewrite H1, He, H2. simpl negb. cbv iota.
  pose proof (quote_plus_safe query enc He) as Hsafe.
  destruct (Py.contains (py "?") _).
  - destruct (Py.endswith _ (py "?") || Py.endswith _ (py "&")).
    + exists [], enc. simpl. tauto.
    + exists (py "&"), enc. tauto.
  - exists (py "?"), enc. tauto.
Qed.

Lemma build_url_appends_encoded_query_witness :
  exists sep enc,
    build_url (py "https://example.com/search{query}") (py "Ada & Co")
    = Ret (Py.replace (py "https://example.com/search{query}") (py "{query}") []
           ++ sep ++ py "q=" ++ enc)
    /\ (sep = [] \/ sep = py "&" \/ sep = py "?")
    /\ Urllib.quote_plus (py "Ada & Co") = Some enc
    /\ Forall url_safe enc.
Proof.
  apply build_url_appends_encoded_query.
  - reflexivity.
  - reflexivity.
  - repeat constructor.
Defined.

Lemma encode_utf8_surrogate (s : str) :
  Exists (fun c => is_surrogate c = true) s -> Urllib.encode_utf8 s = None.
Proof.
  induction 1 as [c l Hc | c l _ IH]; simpl.
  - unfold Urllib.utf8. unfold is_surrogate in Hc. rewrite Hc.
    apply andb_true_iff in Hc. destruct Hc as [Hlo _]. apply N.leb_le in Hlo.
    destruct (N.ltb_spec c 0x80); [lia|]. destruct (N.ltb_spec c 0x800); [lia|].
    reflexivity.
  - rewrite IH. destruct (Urllib.utf8 c); reflexivity.
Qed.

(** X5.  A query with a lone surrogate (which is what an undecodable
    byte of the command line becomes) makes [build_url] raise
    [UnicodeEncodeError] for every template with the placeholder, the
    [q={] templates included: the query is encoded before the branch. *)
Theorem build_url_rejects_surrogates (template query : str) :
  Py.contains (py "{query}") template = true ->
  Exists (fun c => is_surrogate c = true) query ->
  build_url template query = Raise UnicodeEncodeError.
Proof.
  intros H1 Hq. unfold build_url, Urllib.urlencode_q, Urllib.quote_plus.
  rewrite H1, (encode_utf8_surrogate query Hq). reflexivity.
Qed.

Lemma build_url_rejects_surrogates_witness :
  build_url (py "https://example.com/search?q={query}") [0x41; 0xDCE9]
  = Raise UnicodeEncodeError.
Proof.
  apply build_url_rejects_surrogates.
  - reflexivity.
  - right. left. reflexivity.
Defined.

(** ** One logical GET *)

Lemma yields_app (s t : list Event) : yields (s ++ t) = yields s ++ yields t.
Proof. apply flat_map_app. Qed.

Lemma limiter_app (t1 t2 : list Event) (h1 h2 : bool) :
  limiter h1 t1 = Some h2 -> limiter h1 (t1 ++ t2) = limiter h2 t2.
Proof.
  revert h1. induction t1 as [|e t1 IH]; intros h1 H; simpl in *.
  - injection H as ->. reflexivity.
  - destruct e, h1; try discriminate; apply IH; exact H.
Qed.

Section FetchShape.

Context {url_lib : UrlParse} {robots_lib : RobotsLib}.
Variable w : World.

(** What the retry loop does, whatever the network answers. *)
Lemma fetch_attempts_shape (self : PersonScraper) (url : str) :
  forall (len : nat) (a : Z) (st : State),
    (0 < sem st)%Z ->
    (a + Z.of_nat len = max_retries (cfg self) + 1)%Z ->
    exists o st' new g,
      fetch_attempts w self url (attempts_from a len) st = (Ret o, st')
      /\ sem st' = sem st /\ session st' = session st
      /\ robots_cache st' = robots_cache st
      /\ trace st' = trace st ++ new
      /\ limiter false new = Some false
      /\ page_gets new = repeat url g
      /\ (g <= len)%nat /\ (0 < len -> 0 < g)%nat
      /\ length (backoffs new) = (g - 1)%nat
      /\ robots_gets new = [] /\ yields new = [].
Proof.
  induction len as [|len IH]; intros a st Hsem Ha.
  - exists None, st, [], O. simpl. rewrite app_nil_r.
    repeat split; try reflexivity; lia.
  - rewrite attempts_from_S. cbn [fetch_attempts]. run.
    destruct (Z.ltb_spec 0 (sem st)) as [_|]; [|lia]. simpl.
    assert (Hnext : forall st1 : State,
               sem st1 = sem st ->
               exists o st' new g,
                 fetch_attempts w self url (attempts_from (a + 1) len) st1
                 = (Ret o, st')
                 /\ sem st' = sem st /\ session st' = session st1
                 /\ robots_cache st' = robots_cache st1
                 /\ trace st' = trace st1 ++ new
                 /\ limiter false new = Some false
                 /\ page_gets new = repeat url g
                 /\ (g <= len)%nat /\ (0 < len -> 0 < g)%nat
                 /\ length (backoffs new) = (g - 1)%nat
                 /\ robots_gets new = [] /\ yields new = []).
    { intros st1 H1. destruct (IH (a + 1)%Z st1) as (o & st' & new & g & H);
        [lia | lia |].
      exists o, st', new, g. rewrite <- H1. exact H. }
    destruct (negb (Qeq_bool (rate_delay_s (cfg self)) 0)); simpl;
      destruct (http w _ url) as [f | status ct [f | html]]; simpl;
      try destruct f; simpl;
      try destruct (retryable status); simpl;
      try destruct (nonempty ct && negb (Py.contains (py "text/html") ct)); simpl;
      try destruct (Z.ltb_spec a (max_retries (cfg self))) as [Hlt|Hge]; simpl.
    all: try match goal with
         | |- context [fetch_attempts _ _ _ (attempts_from _ _) ?s] =>
             destruct (Hnext s) as
               (o & st' & new & g & E & Hs' & Hse & Hc & Ht & Hl & Hg & Hle
                & Hpos & Hb & Hr & Hy);
             [simpl; lia | rewrite E; eexists o, st', _, (S g)]
         end.
    all: try (eexists _, _, _, 1%nat).
    all: (split; [reflexivity|]).
    all: simpl; try rewrite Hs'; try rewrite Hse; try rewrite Hc; try rewrite Ht;
      simpl; rewrite <- ?app_assoc; simpl.
    all: repeat (split; [first [reflexivity | lia]|]).
    all: rewrite ?page_gets_app, ?backoffs_app, ?robots_gets_app, ?yields_app;
      simpl; rewrite ?Hg, ?Hb, ?Hr, ?Hy, ?length_app; simpl.
    all: repeat (split; [first [reflexivity | exact Hl | lia]|]).
    all: try (split; [first [reflexivity | lia]|]).
    all: first [reflexivity | lia | idtac].
Qed.

End FetchShape.

Section FetchProperties.

Context {url_lib : UrlParse} {robots_lib : RobotsLib}.
Variable w : World.

(** How [fetch] starts: the policy is not asked, or it answers. *)
Lemma fetch_cases (self : PersonScraper) (url ua : str) (st : State) :
  session st = Some ua ->
  (obey_robots (cfg self) = false
   /\ fetch w self url st
      = fetch_attempts w self url (py_range 1 (max_retries (cfg self) + 1)) st)
  \/ (obey_robots (cfg self) = true
      /\ exists b st1,
           allowed w url ua st = (Ret b, st1)
           /\ session st1 = session st /\ sem st1 = sem st
           /\ n_draws st1 = n_draws st
           /\ (trace st1 = trace st
               \/ exists u, trace st1 = trace st ++ [EvRobotsGet u ROBOTS_TIMEOUT])
           /\ (forall key rp, robots_cache st !! key = Some rp ->
                              robots_cache st1 !! key = Some rp)
           /\ fetch w self url st
              = if b
                then fetch_attempts w self url
                       (py_range 1 (max_retries (cfg self) + 1)) st1
                else (Ret None, snd (emit (EvLog (LogRobotsBlocked url)) st1))).
Proof.
  intros Hs. unfold fetch. run. rewrite Hs.
  destruct (obey_robots (cfg self)); [right | left; split; reflexivity].
  split; [reflexivity|].
  destruct (allowed_result w url ua st) as (b & st1 & E & Hse & Hsem & Hd & Ht).
  destruct (allowed_keeps_entries w url ua st) as (b' & st1' & E' & Hk).
  rewrite E in E'. injection E' as <- <-.
  exists b, st1. rewrite E.
  destruct b; run; repeat split; try assumption; try congruence; reflexivity.
Qed.

(** Everything [fetch] does when the session is open and a slot is free,
    whatever the network answers. *)
Lemma fetch_shape (self : PersonScraper) (url ua : str) (st : State) :
  session st = Some ua ->
  (0 < sem st)%Z ->
  exists o st' new g,
    fetch w self url st = (Ret o, st')
    /\ sem st' = sem st /\ session st' = session st
    /\ (forall key rp, robots_cache st !! key = Some rp ->
                       robots_cache st' !! key = Some rp)
    /\ trace st' = trace st ++ new
    /\ limiter false new = Some false
    /\ page_gets new = repeat url g
    /\ (g <= Z.to_nat (max_retries (cfg self)))%nat
    /\ length (backoffs new) = (g - 1)%nat
    /\ yields new = [].
Proof.
  intros Hs Hsem.
  assert (Hloop : forall st1, (0 < sem st1)%Z ->
            exists o st' new g,
              fetch_attempts w self url
                (py_range 1 (max_retries (cfg self) + 1)) st1 = (Ret o, st')
              /\ sem st' = sem st1 /\ session st' = session st1
              /\ robots_cache st' = robots_cache st1
              /\ trace st' = trace st1 ++ new
              /\ limiter false new = Some false
              /\ page_gets new = repeat url g
              /\ (g <= Z.to_nat (max_retries (cfg self)))%nat
              /\ length (backoffs new) = (g - 1)%nat
              /\ yields new = []).
  { intros st1 H1. rewrite py_range_attempts.
    destruct (Z.le_gt_cases 0 (max_retries (cfg self))) as [Hn|Hn].
    - destruct (fetch_attempts_shape w self url
                  (Z.to_nat (max_retries (cfg self))) 1 st1 H1)
        as (o & st' & new & g & E & H); [lia|].
      exists o, st', new, g. tauto.
    - replace (Z.to_nat (max_retries (cfg self))) with O by lia.
      exists None, st1, [], O. simpl. rewrite app_nil_r.
      repeat split; reflexivity || lia. }
  destruct (fetch_cases self url ua st Hs)
    as [[_ ->] | [_ (b & st1 & _ & Hse & Hsm & _ & Ht & Hk & ->)]].
  - destruct (Hloop st Hsem) as (o & st' & new & g & E & H1 & H2 & H3 & H).
    exists o, st', new, g. rewrite H3. tauto.
  - destruct b.
    + destruct (Hloop st1) as
        (o & st' & new & g & E & H1 & H2 & H3 & H4 & H5 & H6 & H7 & H8 & H9);
        [lia|].
      rewrite E.
      destruct Ht as [Ht | [u Ht]].
      * exists o, st', new, g. rewrite H1, H2, H4, Ht, Hsm, Hse.
        repeat split; auto. intros key rp Hkr. rewrite H3. auto.
      * exists o, st', (EvRobotsGet u ROBOTS_TIMEOUT :: new), g.
        rewrite H1, H2, H4, Ht, Hsm, Hse, <- app_assoc. simpl.
        repeat split; auto. intros key rp Hkr. rewrite H3. auto.
    + simpl. destruct Ht as [Ht | [u Ht]].
      * eexists None, _, [EvLog (LogRobotsBlocked url)], O. simpl.
        rewrite Ht. repeat split; auto; lia.
      * eexists None, _,
          [EvRobotsGet u ROBOTS_TIMEOUT; EvLog (LogRobotsBlocked url)], O.
        simpl. rewrite Ht, <- app_assoc. simpl. repeat split; auto; lia.
Qed.

Lemma fetch_attempts_blocked (self : PersonScraper) (url : str) (st : State) :
  (sem st <= 0)%Z ->
  snd (fetch_attempts w self url (py_range 1 (max_retries (cfg self) + 1)) st)
  = st.
Proof.
  intros Hsem. rewrite py_range_attempts.
  destruct (Z.to_nat (max_retries (cfg self))) as [|n]; [reflexivity|].
  rewrite attempts_from_S. cbn [fetch_attempts]. run.
  destruct (Z.ltb_spec 0 (sem st)); [lia | reflexivity].
Qed.

(** X6.  The budget of [fetch], whatever the network answers and
    whether the call returns, raises or waits for ever: the pages it
    has requested are all [url], at most [max_retries] of them (none
    when [max_retries] is zero or less), and it has not slept for
    backoff more often than it has requested; when it returns, the
    sleeps are one fewer than the requests, one between two
    consecutive requests. *)
Theorem fetch_stays_within_budget
    (self : PersonScraper) (url : str) (st : State) :
  exists new g,
    trace (snd (fetch w self url st)) = trace st ++ new
    /\ page_gets new = repeat url g
    /\ (g <= Z.to_nat (max_retries (cfg self)))%nat
    /\ (length (backoffs new) <= g)%nat
    /\ (forall o, fst (fetch w self url st) = Ret o ->
                  length (backoffs new) = (g - 1)%nat).
Proof.
  destruct (session st) as [ua|] eqn:Hs.
  - destruct (Z.ltb_spec 0 (sem st)) as [Hsem|Hsem].
    + destruct (fetch_shape self url ua st Hs Hsem)
        as (o & st' & new & g & E & _ & _ & _ & Ht & _ & Hg & Hle & Hb & _).
      exists new, g. rewrite E. simpl.
      repeat split; try assumption; lia.
    + destruct (fetch_cases self url ua st Hs)
        as [[_ ->] | [_ (b & st1 & _ & _ & Hsm & _ & Ht & _ & ->)]].
      * exists [], O. rewrite fetch_attempts_blocked by exact Hsem.
        rewrite app_nil_r. simpl. repeat split; try reflexivity; lia.
      * assert (Hq : exists q, trace st1 = trace st ++ q
                               /\ page_gets q = [] /\ backoffs q = []).
        { destruct Ht as [Ht | [u Ht]];
            [exists []; rewrite app_nil_r | eexists]; eauto. }
        destruct Hq as (q & Hq & Hpg & Hbk).
        destruct b.
        -- exists q, O. rewrite fetch_attempts_blocked by lia.
           rewrite Hpg, Hbk. simpl. repeat split; try assumption; lia.
        -- exists (q ++ [EvLog (LogRobotsBlocked url)]), O. simpl.
           rewrite Hq, <- app_assoc, page_gets_app, backoffs_app, Hpg, Hbk.
           simpl. repeat split; try reflexivity; lia.
  - exists [], O. unfold fetch. run. rewrite Hs. simpl.
    rewrite app_nil_r. repeat split; try reflexivity; try lia; discriminate.
Qed.


Lemma py_range_first (n : Z) :
  (1 <= n)%Z -> exists rest, py_range 1 (n + 1) = 1%Z :: rest.
Proof.
  intros Hn. rewrite py_range_attempts.
  replace (Z.to_nat n) with (S (Z.to_nat n - 1)) by lia.
  rewrite attempts_from_S. eauto.
Qed.





(** X10.  With no free slot (a scraper configured with
    [concurrency = 0], which the constructor accepts) [fetch] waits for
    ever at its first attempt: nothing is requested and it does not
    return. *)
Theorem fetch_blocks_without_slot
    (self : PersonScraper) (url ua : str) (st : State) :
  session st = Some ua ->
  (sem st <= 0)%Z ->
  (1 <= max_retries (cfg self))%Z ->
  obey_robots (cfg self) = false \/ fst (allowed w url ua st) = Ret true ->
  fst (fetch w self url st) = Hang
  /\ page_gets (trace (snd (fetch w self url st))) = page_gets (trace st).
Proof.
  intros Hs Hsem Hn Hperm.
  destruct (py_range_first _ Hn) as [rest Hrange].
  assert (Hloop : forall st1, sem st1 = sem st ->
            fetch_attempts w self url (1%Z :: rest) st1 = (Hang, st1)).
  { intros st1 H1. cbn [fetch_attempts]. run.
    destruct (Z.ltb_spec 0 (sem st1)); [lia | reflexivity]. }
  destruct (fetch_cases self url ua st Hs)
    as [[_ ->] | [Ho (b & st1 & E & _ & Hsm & _ & Ht & _ & ->)]].
  - rewrite Hrange, Hloop by reflexivity. split; reflexivity.
  - destruct Hperm as [Hf | Ha]; [congruence|].
    rewrite E in Ha. simpl in Ha. injection Ha as ->.
    rewrite Hrange, Hloop by exact Hsm. simpl. split; [reflexivity|].
    destruct Ht as [-> | [u ->]]; [reflexivity|].
    rewrite page_gets_app. simpl. apply app_nil_r.
Qed.

End FetchProperties.

(** ** What a run emits *)

Section Emitting.

Context {url_lib : UrlParse} {robots_lib : RobotsLib} {soup_lib : SoupLib}.
Variable w : World.
Variable ok : Event -> Prop.

Lemma emits_ret {A} (a : A) : emits ok (ret a).
Proof.
  intros st o st' E. injection E as _ <-. exists []. rewrite app_nil_r.
  split; [reflexivity | constructor].
Qed.

Lemma emits_lift {A} (o : outcome A) : emits ok (lift o).
Proof.
  intros st o' st' E. injection E as _ <-. exists []. rewrite app_nil_r.
  split; [reflexivity | constructor].
Qed.

Lemma emits_bind {A B} (m : M A) (k : A -> M B) :
  emits ok m -> (forall a, emits ok (k a)) -> emits ok (bind m k).
Proof.
  intros Hm Hk st o st' E. unfold bind in E.
  destruct (m st) as [[a|e|] st1] eqn:Em.
  - destruct (Hm st _ st1 Em) as (n1 & H1 & F1).
    destruct (Hk a st1 o st' E) as (n2 & H2 & F2).
    exists (n1 ++ n2). rewrite H2, H1, app_assoc.
    split; [reflexivity | apply Forall_app; split; assumption].
  - injection E as _ <-. exact (Hm st _ st1 Em).
  - injection E as _ <-. exact (Hm st _ st1 Em).
Qed.

Lemma emits_when (b : bool) (m : M unit) : emits ok m -> emits ok (when b m).
Proof. intros H. destruct b; [exact H | apply emits_ret]. Qed.

Lemma emits_for_each {A} (xs : list A) (body : A -> M unit) :
  (forall x, In x xs -> emits ok (body x)) -> emits ok (for_each xs body).
Proof.
  induction xs as [|x xs IH]; intros H; simpl.
  - apply emits_ret.
  - apply emits_bind; [apply H; left; reflexivity | intros _].
    apply IH. intros y Hy. apply H. right. exact Hy.
Qed.

Lemma emits_emit (e : Event) : ok e -> emits ok (emit e).
Proof.
  intros He st o st' E. injection E as _ <-. exists [e].
  split; [reflexivity | repeat constructor; exact He].
Qed.

Lemma emits_request (url : str) (e : Event) : ok e -> emits ok (request w url e).
Proof.
  intros He st o st' E. injection E as _ <-. exists [e].
  split; [reflexivity | repeat constructor; exact He].
Qed.

Lemma emits_silent {A} (m : M A) :
  (forall st, trace (snd (m st)) = trace st) -> emits ok m.
Proof.
  intros H st o st' E. exists []. rewrite app_nil_r.
  split; [|constructor]. specialize (H st). rewrite E in H. exact H.
Qed.

Ltac emitting :=
  repeat first
    [ apply emits_ret | apply emits_lift
    | apply emits_silent; intros ?; reflexivity
    | apply emits_emit; simpl; first [exact I | assumption]
    | apply emits_request; simpl; first [exact I | assumption]
    | assumption
    | apply emits_when
    | apply emits_bind; [|intros ?]
    | match goal with
      | |- emits _ (if ?b then _ else _) => destruct b
      | |- emits _ (match ?x with _ => _ end) => destruct x
      end ].

Lemma emits_allowed (url ua : str) :
  (forall u t, ok (EvRobotsGet u t)) -> emits ok (allowed w url ua).
Proof.
  intros Hok. unfold allowed. destruct (urlparse url) as [scheme netloc].
  destruct scheme; [apply emits_ret|]. destruct netloc; [apply emits_ret|].
  apply emits_bind; [emitting | intros st].
  apply emits_bind; [|intros rp; apply emits_ret].
  destruct (robots_cache st !! _); [apply emits_ret|].
  apply emits_bind; [apply emits_request; apply Hok | intros r].
  unfold cache_store. emitting.
Qed.

Lemma emits_fetch (self : PersonScraper) (url : str) :
  (forall e, (forall item, e <> EvYield item) ->
             (forall u ua, e = EvGet u ua -> u = url) -> ok e) ->
  emits ok (fetch w self url).
Proof.
  intros Hok.
  assert (Hev : forall e,
             match e with
             | EvYield _ => False
             | EvGet u _ => u = url
             | _ => True
             end -> ok e).
  { intros e He. apply Hok.
    - intros item ->. exact He.
    - intros u ua ->. exact He. }
  assert (Hloop : forall attempts, emits ok (fetch_attempts w self url attempts)).
  { induction attempts as [|attempt rest IH]; cbn [fetch_attempts].
    - apply emits_ret.
    - unfold acquire, release, sleep_backoff, log_failure, get_state, set_sem, draw.
      repeat first
        [ apply emits_ret | apply emits_lift | exact IH
        | apply emits_silent; intros ?; reflexivity
        | apply emits_emit; apply Hev; exact I
        | apply emits_request; apply Hev; reflexivity
        | apply emits_when
        | apply emits_bind; [|intros ?]
        | match goal with
          | |- emits _ (if ?b then _ else _) => destruct b
          | |- emits _ (match ?x with _ => _ end) => destruct x
          end ]. }
  unfold fetch, session_ua, get_state.
  apply emits_bind; [emitting | intros ua].
  apply emits_bind; [|intros b; destruct b; [apply emits_ret | apply Hloop]].
  destruct (obey_robots (cfg self)); [|apply emits_ret].
  apply emits_bind; [apply emits_allowed; intros u t; apply Hev; exact I | intros b].
  destruct (negb b); [|apply emits_ret].
  apply emits_bind; [apply emits_emit; apply Hev; exact I | intros _; apply emits_ret].
Qed.

Lemma emits_random_choice (xs : list str) : emits ok (random_choice w xs).
Proof.
  unfold random_choice, draw. destruct xs; [apply emits_lift|].
  apply emits_bind; [apply emits_silent; intros ?; reflexivity | intros i].
  apply emits_ret.
Qed.

End Emitting.

Lemma build_url_requires_placeholder_model (template query : str) :
  ~ (exists pre post, template = pre ++ py "{query}" ++ post) ->
  build_url template query = Raise ValueError.
Proof.
  intros H. unfold build_url.
  destruct (Py.contains (py "{query}") template) eqn:E; [|reflexivity].
  apply contains_spec in E. contradiction.
Qed.

Section SearchEmits.

Context {url_lib : UrlParse} {robots_lib : RobotsLib} {soup_lib : SoupLib}.
Variable w : World.

Lemma events_since_app (st st' : State) (new : list Event) :
  trace st' = trace st ++ new -> events_since st st' = new.
Proof. intros H. unfold events_since. rewrite H. apply drop_app_length. Qed.

Lemma emitted_since {A} (ok : Event -> Prop) (m : M A) (st : State) :
  emits ok m -> Forall ok (events_since st (snd (m st))).
Proof.
  intros H. destruct (m st) as [o st'] eqn:E.
  destruct (H st o st' E) as (new & Ht & Hf). simpl.
  rewrite (events_since_app st st' new Ht). exact Hf.
Qed.

Lemma parse_items_safe (self : PersonScraper) (html : str) (target : Target)
    (item : Item) :
  In item (parse_items self html target) ->
  Forall (fun kv => ~ formula_prefixed (snd kv)) item.
Proof.
  unfold parse_items. intros H. apply in_map_iff in H.
  destruct H as [node [<- _]]. apply sanitize_item_safe.
Qed.

Lemma emits_bind_lift {A B} (ok : Event -> Prop) (o : outcome A) (k : A -> M B) :
  (forall a, o = Ret a -> emits ok (k a)) -> emits ok (bind (lift o) k).
Proof.
  intros H. destruct o as [a|e|].
  - intros st o' st' E. exact (H a eq_refl st o' st' E).
  - intros st o' st' E. injection E as _ <-. exists []. rewrite app_nil_r.
    split; [reflexivity | constructor].
  - intros st o' st' E. injection E as _ <-. exists []. rewrite app_nil_r.
    split; [reflexivity | constructor].
Qed.

(** What [search] emits: pages of its targets, items of their pages,
    and events of no other kind than those of [fetch]. *)
Lemma search_emits (ok : Event -> Prop) (self : PersonScraper)
    (query : option str) :
  (forall e, (forall item, e <> EvYield item) ->
             (forall u ua, e <> EvGet u ua) -> ok e) ->
  (forall q' target url ua,
      sanitize_query query = Ret q' -> In target (targets self) ->
      build_url (url_template target) q' = Ret url -> ok (EvGet url ua)) ->
  (forall target html item,
      In target (targets self) -> In item (parse_items self html target) ->
      has_content item = true -> ok (EvYield item)) ->
  emits ok (search w self query).
Proof.
  intros Hother Hget Hyield. unfold search.
  apply emits_bind_lift. intros q' Hq.
  apply emits_bind;
    [unfold session_ua, get_state;
     apply emits_bind; [apply emits_silent; intros ?; reflexivity | intros st0];
     destruct (session st0); [apply emits_ret | apply emits_lift]
    | intros _].
  apply emits_for_each. intros target Hin.
  apply emits_bind_lift. intros url Hurl.
  apply emits_bind.
  { apply emits_when. apply emits_bind; [apply emits_random_choice | intros ua].
    apply emits_silent. intros ?. reflexivity. }
  intros _. apply emits_bind.
  { apply emits_fetch. intros e Hny Hg.
    destruct e as [u t|u ua| | | | | |item];
      try (apply Hother; [exact Hny | intros ? ?; discriminate]).
    rewrite (Hg u ua eq_refl). eapply Hget; eassumption. }
  intros html. destruct html as [[|c html]|]; try apply emits_ret.
  apply emits_for_each. intros item Hitem.
  destruct (has_content item) eqn:Hc; [|apply emits_ret].
  apply emits_emit. eapply Hyield; eassumption.
Qed.

Lemma yields_presentable_all (new : list Event) :
  Forall yields_presentable new -> Forall presentable (yields new).
Proof.
  induction 1 as [|e l He _ IH]; [constructor|].
  destruct e; simpl; try exact IH. constructor; assumption.
Qed.

Lemma gets_satisfy_all (P : str -> Prop) (new : list Event) :
  Forall (gets_satisfy P) new -> Forall P (page_gets new).
Proof.
  induction 1 as [|e l He _ IH]; [constructor|].
  destruct e; simpl; try exact IH. constructor; assumption.
Qed.

(** X11.  Whatever the network and the pages, every item [search]
    hands over has a filled field besides the source, and none of its
    values begins with [+], [-], [=], [@] or TAB. *)
Theorem search_yields_presentable_items
    (self : PersonScraper) (query : option str) (st : State) :
  Forall presentable (yields (events_since st (snd (search w self query st)))).
Proof.
  apply yields_presentable_all. apply emitted_since. apply search_emits.
  - intros e Hny _. destruct e; try exact I. exfalso. exact (Hny item eq_refl).
  - intros. exact I.
  - intros target html item _ Hitem Hc. split; [exact Hc|].
    eapply parse_items_safe. exact Hitem.
Qed.

(** X12.  The only pages [search] requests are those of its targets:
    each is [build_url] of a target's template and the sanitized
    query.  (With a rejected query there is none.) *)
Theorem search_requests_only_target_urls
    (self : PersonScraper) (query : option str) (st : State) :
  Forall (fun url =>
            exists q' target,
              sanitize_query query = Ret q'
              /\ In target (targets self)
              /\ build_url (url_template target) q' = Ret url)
         (page_gets (events_since st (snd (search w self query st)))).
Proof.
  apply gets_satisfy_all. apply emitted_since. apply search_emits.
  - intros e _ Hng. destruct e; try exact I. exfalso. exact (Hng url ua eq_refl).
  - intros q' target url ua Hq Hin Hurl. simpl. eauto.
  - intros. exact I.
Qed.

Lemma bind_ret_eq {A B} (m : M A) (k : A -> M B) (st st1 : State) (a : A) :
  m st = (Ret a, st1) -> bind m k st = k a st1.
Proof. intros H. unfold bind. rewrite H. reflexivity. Qed.

Lemma for_each_app {A} (xs ys : list A) (body : A -> M unit) (st : State) :
  for_each (xs ++ ys) body st
  = bind (for_each xs body) (fun _ => for_each ys body) st.
Proof.
  revert st. induction xs as [|x xs IH]; intros st; simpl; [reflexivity|].
  unfold bind. destruct (body x st) as [[u|e|] st1]; try reflexivity.
  rewrite IH. unfold bind. reflexivity.
Qed.

(** The body of the loop reads the settings of the scraper, not its
    targets. *)
Lemma search_body_targets (self : PersonScraper) (t1 t2 : list Target)
    (q' : str) (target : Target) (st : State) :
  (url <- lift (build_url (url_template target) q');;
   when (busqueda_intensiva (cfg (with_targets self t1)))
        (ua <- random_choice w (user_agents (cfg (with_targets self t1)));;
         set_session (Some (or_default ua)));;;
   html <- fetch w (with_targets self t1) url;;
   match html with
   | None | Some [] => ret tt
   | Some html =>
       for_each (parse_items (with_targets self t1) html target) (fun item =>
         when (has_content item) (emit (EvYield item)))
   end) st
  = (url <- lift (build_url (url_template target) q');;
     when (busqueda_intensiva (cfg (with_targets self t2)))
          (ua <- random_choice w (user_agents (cfg (with_targets self t2)));;
           set_session (Some (or_default ua)));;;
     html <- fetch w (with_targets self t2) url;;
     match html with
     | None | Some [] => ret tt
     | Some html =>
         for_each (parse_items (with_targets self t2) html target) (fun item =>
           when (has_content item) (emit (EvYield item)))
     end) st.
Proof.
  revert st. apply bind_ext; [reflexivity | intros url].
  apply bind_ext; [reflexivity | intros _].
  rewrite (fetch_alias w (with_targets self t1) (with_targets self t2) eq_refl url).
  apply bind_ext; [reflexivity | intros html st].
  destruct html as [[|c html]|]; reflexivity.
Qed.

Lemma search_unfold (self : PersonScraper) (query : option str) (q' ua : str)
    (st : State) :
  sanitize_query query = Ret q' ->
  session st = Some ua ->
  search w self query st
  = for_each (targets self) (fun target =>
      url <- lift (build_url (url_template target) q');;
      when (busqueda_intensiva (cfg self))
           (ua <- random_choice w (user_agents (cfg self));;
            set_session (Some (or_default ua)));;;
      html <- fetch w self url;;
      match html with
      | None | Some [] => ret tt
      | Some html =>
          for_each (parse_items self html target) (fun item =>
            when (has_content item) (emit (EvYield item)))
      end) st.
Proof.
  intros Hq Hs. unfold search. rewrite Hq.
  unfold bind at 1, lift at 1. cbv iota beta.
  unfold bind at 1, session_ua, bind at 1, get_state. rewrite Hs.
  reflexivity.
Qed.

Lemma search_started (self : PersonScraper) (query : option str)
    (st st1 : State) :
  search w self query st = (Ret tt, st1) ->
  exists q' ua, sanitize_query query = Ret q' /\ session st = Some ua.
Proof.
  unfold search. destruct (sanitize_query query) as [q'|e|]; try discriminate.
  unfold bind at 1, lift at 1. cbv iota beta.
  unfold bind at 1, session_ua, bind at 1, get_state.
  destruct (session st) as [ua|]; [eauto | discriminate].
Qed.

(** X14.  A target whose template lacks the placeholder is not
    skipped: [search] raises [ValueError] when it reaches it.  What the
    targets before it produced stays (their items were handed over),
    and the targets after it are never tried. *)
Theorem search_stops_at_bad_template
    (self : PersonScraper) (good rest : list Target) (bad : Target)
    (query : option str) (st st1 : State) :
  ~ (exists pre post, url_template bad = pre ++ py "{query}" ++ post) ->
  search w (with_targets self good) query st = (Ret tt, st1) ->
  search w (with_targets self (good ++ bad :: rest)) query st
  = (Raise ValueError, st1).
Proof.
  intros Hbad Hgood.
  destruct (search_started _ _ _ _ Hgood) as (q' & ua & Hq & Hs).
  rewrite (search_unfold (with_targets self good) _ q' ua st Hq Hs) in Hgood.
  rewrite (search_unfold (with_targets self (good ++ bad :: rest)) _ q' ua st Hq Hs).
  simpl targets in *. rewrite for_each_app. unfold bind at 1.
  match goal with
  | |- context [for_each good ?F st] =>
      assert (Hfull : for_each good F st = (Ret tt, st1))
  end.
  { rewrite <- Hgood. apply for_each_ext. intros target st2.
    apply (search_body_targets self (good ++ bad :: rest) good). }
  rewrite Hfull. cbn [for_each]. unfold bind at 1 2, lift at 1.
  rewrite (build_url_requires_placeholder_model _ _ Hbad). reflexivity.
Qed.

End SearchEmits.

(** ** Entering the session and the command line *)

Section Setup.

Context {url_lib : UrlParse} {robots_lib : RobotsLib} {soup_lib : SoupLib}.
Variable w : World.

Lemma or_default_nonempty (x : str) :
  or_default x <> [] /\ (or_default x = x \/ or_default x = DEFAULT_UA).
Proof.
  destruct x as [|c x]; simpl; split; try discriminate; auto.
Qed.

Lemma aenter_opens (self : PersonScraper) (st : State) :
  user_agents (cfg self) <> [] ->
  exists ua,
    aenter w self st
    = (Ret tt,
       {| robots_cache := robots_cache st; session := Some ua; sem := sem st;
          n_requests := n_requests st; n_draws := S (n_draws st);
          trace := trace st |})
    /\ ua <> [] /\ (In ua (user_agents (cfg self)) \/ ua = DEFAULT_UA).
Proof.
  intros Hne. unfold aenter, random_choice.
  destruct (user_agents (cfg self)) as [|x xs] eqn:E; [congruence|].
  eexists. split; [reflexivity|].
  destruct (or_default_nonempty
              (nth (random_index w (n_draws st) mod length (x :: xs)) (x :: xs) x))
    as [H1 [H2 | H2]].
  - split; [exact H1|]. left. rewrite H2. apply nth_In.
    apply Nat.mod_upper_bound. discriminate.
  - split; [exact H1 | right; exact H2].
Qed.


Lemma cli_config (args : Args) :
  (1 <= concurrency (snd (parse_cli args)))%Z
  /\ (0 <= max_retries (snd (parse_cli args)))%Z
  /\ (0 <= rate_delay_s (snd (parse_cli args)))%Q
  /\ user_agents (snd (parse_cli args)) <> []
  /\ backoff_base (snd (parse_cli args)) = 1 # 2.
Proof.
  unfold parse_cli. simpl. repeat split; try lia.
  - destruct (Qle_bool (arg_rate_delay args) 0) eqn:E; [apply Qle_refl|].
    destruct (Qlt_le_dec 0 (arg_rate_delay args)) as [H|H].
    + apply Qlt_le_weak. exact H.
    + apply Qle_bool_iff in H. congruence.
  - destruct (arg_ua args) as [[|u uas]|]; simpl; intros E; discriminate E.
Qed.

Lemma cli_starts (args : Args) (tgts : list Target) (st : State) :
  exists scraper st1 st2 ua,
    PersonScraper_init (snd (parse_cli args)) tgts st = (Ret scraper, st1)
    /\ aenter w scraper st1 = (Ret tt, st2)
    /\ session st2 = Some ua /\ ua <> []
    /\ sem st2 = Z.max 1 (arg_concurrency args)
    /\ robots_cache st2 = ∅ /\ trace st2 = trace st
    /\ targets scraper = tgts
    /\ user_agents (cfg scraper) <> []
    /\ max_retries (cfg scraper) = Z.max 0 (arg_retries args)
    /\ rate_delay_s (cfg scraper) = rate_delay_s (snd (parse_cli args))
    /\ output_csv (cfg scraper) = Some (arg_csv args)
    /\ busqueda_intensiva (cfg scraper)
       = arg_intensiva args || arg_intesiva args.
Proof.
  destruct (cli_config args) as (_ & _ & _ & Hu & _).
  assert (Hinit : exists scraper st1,
             PersonScraper_init (snd (parse_cli args)) tgts st = (Ret scraper, st1)
             /\ sem st1 = Z.max 1 (arg_concurrency args)
             /\ robots_cache st1 = ∅ /\ trace st1 = trace st
             /\ targets scraper = tgts
             /\ user_agents (cfg scraper) = user_agents (snd (parse_cli args))
             /\ max_retries (cfg scraper) = Z.max 0 (arg_retries args)
             /\ rate_delay_s (cfg scraper) = rate_delay_s (snd (parse_cli args))
             /\ output_csv (cfg scraper) = Some (arg_csv args)
             /\ busqueda_intensiva (cfg scraper)
                = arg_intensiva args || arg_intesiva args).
  { unfold PersonScraper_init, map_alias, parse_cli. simpl.
    destruct (arg_intesiva args); simpl;
      (destruct (Z.ltb_spec (Z.max 1 (arg_concurrency args)) 0); [lia|]);
      eexists _, _; (split; [reflexivity|]); simpl;
      repeat split; try reflexivity.
    - symmetry. apply orb_true_r.
    - symmetry. apply orb_false_r. }
  destruct Hinit
    as (scraper & st1 & Ei & Hsem & Hcache & Ht & Htg & Hua & Hmr & Hrd & Hcsv & Hint).
  destruct (aenter_opens scraper st1) as (ua & Ea & Hne & _);
    [rewrite Hua; exact Hu|].
  eexists scraper, st1, _, ua. split; [exact Ei|]. split; [exact Ea|]. simpl.
  rewrite Hua. repeat split; assumption.
Qed.

(** X16.  Whatever the command line, the configuration [parse_cli]
    builds lets the scraper be constructed and entered: at least one
    slot, a retry count and a rate delay that are not negative, and a
    session under a user agent that is not empty (the default one when
    no [--ua] was given).  Intensive mode is on when either spelling of
    the flag was given. *)
Theorem cli_scraper_starts (args : Args) (tgts : list Target) (st : State) :
  exists scraper st1 st2 ua,
    PersonScraper_init (snd (parse_cli args)) tgts st = (Ret scraper, st1)
    /\ aenter w scraper st1 = (Ret tt, st2)
    /\ session st2 = Some ua /\ ua <> []
    /\ (1 <= sem st2)%Z
    /\ (0 <= max_retries (cfg scraper))%Z
    /\ (0 <= rate_delay_s (cfg scraper))%Q
    /\ busqueda_intensiva (cfg scraper)
       = arg_intensiva args || arg_intesiva args
    /\ robots_cache st2 = ∅ /\ trace st2 = trace st.
Proof.
  destruct (cli_config args) as (Hc & Hr & Hd & _).
  destruct (cli_starts args tgts st)
    as (scraper & st1 & st2 & ua & Ei & Ea & Hs & Hne & Hsem & Hcache & Ht
        & _ & _ & Hmr & Hrd & _ & Hint).
  exists scraper, st1, st2, ua. rewrite Hsem, Hmr, Hrd.
  repeat split; try assumption; lia.
Qed.

End Setup.

(** ** Whitespace normalization *)

Lemma collapse_ws_spaced (s : str) (b : bool) :
  single_spaced (Py.collapse_ws b s)
  /\ (b = true ->
      match Py.collapse_ws b s with
      | c :: _ => Py.isspace c = false
      | [] => True
      end).
Proof.
  revert b. induction s as [|c s IH]; intros b; [simpl; tauto|].
  cbn [Py.collapse_ws]. destruct (Py.isspace c) eqn:Ec.
  - destruct b; [apply IH|].
    destruct (IH true) as [H1 H2]. specialize (H2 eq_refl).
    split; [|discriminate]. cbn [single_spaced].
    split; [reflexivity|]. split; [|exact H1].
    destruct (Py.collapse_ws true s) as [|d r]; [exact I|].
    intros [_ ->]. discriminate H2.
  - destruct (IH false) as [H1 _].
    split; [|intros _; exact Ec]. cbn [single_spaced].
    split; [congruence|]. split; [|exact H1].
    destruct (Py.collapse_ws false s) as [|d r]; [exact I|].
    intros [-> _]. discriminate Ec.
Qed.

Lemma single_spaced_app (s t : str) :
  single_spaced (s ++ t) -> single_spaced s /\ single_spaced t.
Proof.
  induction s as [|c s IH]; [simpl; tauto|].
  rewrite <- app_comm_cons. cbn [single_spaced].
  intros (H1 & H2 & H3). destruct (IH H3) as [H4 H5].
  repeat split; try assumption.
  destruct s as [|d s]; [exact I | exact H2].
Qed.

Lemma lstrip_suffix (s : str) : exists p, s = p ++ Py.lstrip s.
Proof.
  induction s as [|c s [p IH]]; [exists []; reflexivity|].
  simpl. destruct (Py.isspace c).
  - exists (c :: p). simpl. f_equal. exact IH.
  - exists []. reflexivity.
Qed.

Lemma rstrip_prefix (s : str) : exists t, s = Py.rstrip s ++ t.
Proof.
  unfold Py.rstrip. destruct (lstrip_suffix (rev s)) as [p H].
  exists (rev p). rewrite <- rev_app_distr, <- H. symmetry. apply rev_involutive.
Qed.

Lemma strip_single_spaced (s : str) :
  single_spaced s -> single_spaced (Py.strip s).
Proof.
  intros H. unfold Py.strip.
  destruct (lstrip_suffix s) as [p Hp]. rewrite Hp in H.
  apply single_spaced_app in H. destruct H as [_ H].
  destruct (rstrip_prefix (Py.lstrip s)) as [t Ht]. rewrite Ht in H.
  apply single_spaced_app in H. tauto.
Qed.

Lemma strip_is_trimmed (s : str) : trimmed (Py.strip s).
Proof.
  unfold trimmed. destruct (Py.strip s) as [|c r] eqn:E; [exact I|].
  unfold Py.strip in E. split.
  - destruct (rstrip_prefix (Py.lstrip s)) as [t Ht]. rewrite E in Ht.
    simpl in Ht. apply lstrip_head in Ht. exact Ht.
  - intros d Hd. unfold Py.rstrip in E.
    destruct (Py.lstrip (rev (Py.lstrip s))) as [|e y] eqn:Ey;
      [discriminate|].
    simpl in E. rewrite <- E, last_snoc in Hd. injection Hd as <-.
    apply lstrip_head in Ey. exact Ey.
Qed.

Lemma collapse_ws_fixed (s : str) (b : bool) :
  single_spaced s ->
  (b = true -> match s with c :: _ => Py.isspace c = false | [] => True end) ->
  Py.collapse_ws b s = s.
Proof.
  revert b. induction s as [|c s IH]; intros b Hs Hb; [reflexivity|].
  cbn [single_spaced] in Hs. destruct Hs as (H1 & H2 & H3).
  cbn [Py.collapse_ws]. destruct (Py.isspace c) eqn:Ec.
  - destruct b; [specialize (Hb eq_refl); congruence|].
    rewrite (H1 eq_refl). f_equal. apply IH; [exact H3|]. intros _.
    destruct s as [|d s]; [exact I|].
    destruct (Py.isspace d) eqn:Ed; [|reflexivity].
    cbn [single_spaced] in H3. destruct H3 as (H4 & _).
    exfalso. apply H2. split; [apply H1; reflexivity | apply H4; exact Ed].
  - f_equal. apply IH; [exact H3 | discriminate].
Qed.

Lemma collapse_ws_content (s : str) (b : bool) :
  List.filter (fun c => negb (Py.isspace c)) (Py.collapse_ws b s)
  = List.filter (fun c => negb (Py.isspace c)) s.
Proof.
  revert b. induction s as [|c s IH]; intros b; [reflexivity|].
  cbn [Py.collapse_ws List.filter]. destruct (Py.isspace c) eqn:Ec; simpl.
  - destruct b; [apply IH|]. simpl. apply IH.
  - rewrite Ec. simpl. f_equal. apply IH.
Qed.

Lemma lstrip_content (s : str) :
  List.filter (fun c => negb (Py.isspace c)) (Py.lstrip s)
  = List.filter (fun c => negb (Py.isspace c)) s.
Proof.
  induction s as [|c s IH]; [reflexivity|].
  simpl. destruct (Py.isspace c) eqn:Ec; simpl; [exact IH|].
  rewrite Ec. reflexivity.
Qed.

Lemma filter_rev {A} (f : A -> bool) (l : list A) :
  List.filter f (rev l) = rev (List.filter f l).
Proof.
  induction l as [|x l IH]; [reflexivity|].
  simpl. rewrite List.filter_app, IH. simpl.
  destruct (f x); simpl; [reflexivity | apply app_nil_r].
Qed.

Lemma strip_content (s : str) :
  List.filter (fun c => negb (Py.isspace c)) (Py.strip s)
  = List.filter (fun c => negb (Py.isspace c)) s.
Proof.
  unfold Py.strip, Py.rstrip.
  rewrite filter_rev, lstrip_content, filter_rev, rev_involutive.
  apply lstrip_content.
Qed.

(** X17.  Whitespace normalization, as [parse_items] applies it to a
    field: in the result the only whitespace character is the space,
    never two in a row and never first or last; the characters that
    are not whitespace are kept, all of them and in their order; and
    normalizing a second time changes nothing. *)
Theorem normalize_normal_form (raw : str) :
  single_spaced (normalize raw)
  /\ trimmed (normalize raw)
  /\ List.filter (fun c => negb (Py.isspace c)) (normalize raw)
     = List.filter (fun c => negb (Py.isspace c)) raw
  /\ normalize (normalize raw) = normalize raw.
Proof.
  assert (Hs : single_spaced (normalize raw)).
  { apply strip_single_spaced. apply (collapse_ws_spaced raw false). }
  assert (Ht : trimmed (normalize raw)) by apply strip_is_trimmed.
  split; [exact Hs|]. split; [exact Ht|]. split.
  - unfold normalize. rewrite strip_content. apply collapse_ws_content.
  - unfold normalize at 1.
    rewrite (collapse_ws_fixed _ false Hs) by discriminate.
    apply strip_trimmed. exact Ht.
Qed.

(** ** Items as dictionaries *)

Lemma dict_get_set_eq (k v : str) (item : Item) :
  dict_get k (dict_set k v item) = v.
Proof.
  induction item as [|[k' v'] item IH]; simpl.
  - destruct (decide (k = k)); congruence.
  - destruct (decide (k' = k)) as [->|Hne]; simpl.
    + destruct (decide (k = k)); congruence.
    + destruct (decide (k' = k)); [congruence | exact IH].
Qed.

Lemma dict_get_set_ne (k k' v : str) (item : Item) :
  k <> k' -> dict_get k (dict_set k' v item) = dict_get k item.
Proof.
  intros Hne. induction item as [|[k0 v0] item IH]; simpl.
  - destruct (decide (k' = k)); congruence.
  - destruct (decide (k0 = k')) as [->|H0]; simpl.
    + destruct (decide (k' = k)); congruence.
    + destruct (decide (k0 = k)); [reflexivity | exact IH].
Qed.

Lemma dict_set_fresh (k v : str) (item : Item) :
  ~ In k (List.map fst item) -> dict_set k v item = item ++ [(k, v)].
Proof.
  induction item as [|[k' v'] item IH]; simpl; [reflexivity|].
  intros H. destruct (decide (k' = k)) as [->|Hne]; [tauto|].
  f_equal. apply IH. tauto.
Qed.

Lemma dict_set_keys (k v : str) (item : Item) :
  In k (List.map fst item) -> List.map fst (dict_set k v item) = List.map fst item.
Proof.
  induction item as [|[k' v'] item IH]; simpl; [tauto|].
  intros H. destruct (decide (k' = k)) as [->|Hne]; [reflexivity|].
  simpl. f_equal. apply IH. destruct H; congruence.
Qed.

Lemma dict_set_nodup (k v : str) (item : Item) :
  NoDup (List.map fst item) -> NoDup (List.map fst (dict_set k v item)).
Proof.
  intros H. destruct (decide (k ∈ List.map fst item)) as [Hin|Hout].
  - rewrite dict_set_keys by (apply list_elem_of_In; exact Hin). exact H.
  - rewrite dict_set_fresh by (rewrite <- list_elem_of_In; exact Hout).
    rewrite List.map_app. simpl. apply NoDup_app.
    split; [exact H|]. split; [|apply NoDup_singleton].
    intros x Hx Hk. apply list_elem_of_singleton in Hk. subst x. tauto.
Qed.

Section Items.

Context {robots_lib : RobotsLib} {soup_lib : SoupLib}.
Variable config : ScraperConfig.
Variable node : Tag.

Lemma fold_fields_fresh (flds : list (str * str)) (acc : Item) :
  NoDup (List.map fst acc ++ List.map fst flds) ->
  fold_left (store_field config node) flds acc
  = acc ++ List.map (fun f => (fst f, field_value config node (snd f))) flds.
Proof.
  revert acc. induction flds as [|[k sel] flds IH]; intros acc H; simpl.
  - symmetry. apply app_nil_r.
  - simpl in H. pose proof H as H'. apply NoDup_ListNoDup in H'.
    pose proof (List.NoDup_remove _ _ _ H') as [_ Hk].
    unfold store_field at 2. simpl.
    rewrite dict_set_fresh by (intros Hin; apply Hk; apply in_or_app; tauto).
    rewrite IH.
    + rewrite <- app_assoc. reflexivity.
    + rewrite List.map_app. simpl. rewrite <- app_assoc. exact H.
Qed.

Lemma fold_fields_other (k : str) (flds : list (str * str)) (acc : Item) :
  ~ In k (List.map fst flds) ->
  dict_get k (fold_left (store_field config node) flds acc) = dict_get k acc.
Proof.
  revert acc. induction flds as [|[k' sel] flds IH]; intros acc H; simpl;
    [reflexivity|].
  simpl in H. rewrite IH by tauto. unfold store_field. simpl.
  apply dict_get_set_ne. intros ->. tauto.
Qed.

Lemma fold_fields_lookup (k sel : str) (flds : list (str * str)) (acc : Item) :
  NoDup (List.map fst flds) -> In (k, sel) flds ->
  dict_get k (fold_left (store_field config node) flds acc) = field_value config node sel.
Proof.
  revert acc. induction flds as [|[k' sel'] flds IH]; intros acc Hnd Hin;
    [destruct Hin|].
  simpl in Hnd. apply NoDup_cons in Hnd. destruct Hnd as [Hk Hnd'].
  rewrite list_elem_of_In in Hk.
  destruct Hin as [E|Hin]; simpl.
  - injection E as -> ->. rewrite fold_fields_other by exact Hk.
    unfold store_field. simpl. apply dict_get_set_eq.
  - apply IH; assumption.
Qed.

Lemma fold_fields_nodup (flds : list (str * str)) (acc : Item) :
  NoDup (List.map fst acc) ->
  NoDup (List.map fst (fold_left (store_field config node) flds acc)).
Proof.
  revert acc. induction flds as [|f flds IH]; intros acc H; simpl;
    [exact H|].
  apply IH. apply dict_set_nodup. exact H.
Qed.

Lemma dict_get_sanitize (k : str) (item : Item) :
  dict_get k (sanitize_item item) = csv_safe (dict_get k item).
Proof.
  induction item as [|[k' v] item IH]; simpl; [reflexivity|].
  destruct (decide (k' = k)); [reflexivity | exact IH].
Qed.

Lemma sanitize_item_keys (item : Item) :
  List.map fst (sanitize_item item) = List.map fst item.
Proof.
  unfold sanitize_item. rewrite List.map_map. reflexivity.
Qed.

Lemma raw_item_lookup (target : Target) (k sel : str) :
  NoDup (List.map fst (fields target)) -> In (k, sel) (fields target) ->
  dict_get k (raw_item config node target) = field_value config node sel.
Proof. apply fold_fields_lookup. Qed.

Lemma raw_item_source (target : Target) :
  ~ In (py "source") (List.map fst (fields target)) ->
  dict_get (py "source") (raw_item config node target) = name target.
Proof.
  intros H. unfold raw_item.
  rewrite (fold_fields_other (py "source") (fields target) _ H).
  reflexivity.
Qed.

Lemma raw_item_nodup (target : Target) :
  NoDup (List.map fst (raw_item config node target)).
Proof.
  apply fold_fields_nodup. simpl. apply NoDup_singleton.
Qed.

Lemma raw_item_distinct (target : Target) :
  NoDup (py "source" :: List.map fst (fields target)) ->
  raw_item config node target
  = (py "source", name target)
    :: List.map (fun f => (fst f, field_value config node (snd f))) (fields target).
Proof.
  intros H. unfold raw_item.
  exact (fold_fields_fresh (fields target) [(py "source", name target)] H).
Qed.

End Items.

Section ParseItems.

Context {robots_lib : RobotsLib} {soup_lib : SoupLib}.

(** X18.  When no field is called [source], [parse_items] gives one
    item per node the item selector matches, in document order, each
    made of the target's name under [source] followed by the fields in
    the order the target declares them, every value passed through
    [csv_safe]. *)
Theorem parse_items_of_distinct_fields (self : PersonScraper) (html : str)
    (target : Target) :
  NoDup (py "source" :: List.map fst (fields target)) ->
  parse_items self html target
  = List.map
      (fun node =>
         (py "source", csv_safe (name target))
         :: List.map
              (fun f => (fst f, csv_safe (field_value (cfg self) node (snd f))))
              (fields target))
      (soup_select html (item_selector target)).
Proof.
  intros H. unfold parse_items. apply List.map_ext. intros node.
  rewrite (raw_item_distinct (cfg self) node target H).
  unfold sanitize_item. simpl. f_equal. rewrite List.map_map. reflexivity.
Qed.

(** X19.  The items of [parse_items] match the nodes the item
    selector finds, one for one and in order.  The item of a node is a
    dictionary (its keys are distinct) in which every field the target
    declares reads back, under its name, as the [csv_safe] image of
    the value extracted from that very node.  This holds for a field
    called [source] too, whose value then takes the place of the
    target's name; without such a field [source] reads back as the
    [csv_safe] image of the name. *)
Theorem parse_items_field_lookup (self : PersonScraper) (html : str)
    (target : Target) :
  NoDup (List.map fst (fields target)) ->
  Forall2
    (fun node item =>
       NoDup (List.map fst item)
       /\ (forall k sel,
             In (k, sel) (fields target) ->
             dict_get k item = csv_safe (field_value (cfg self) node sel))
       /\ (~ In (py "source") (List.map fst (fields target)) ->
           dict_get (py "source") item = csv_safe (name target)))
    (soup_select html (item_selector target))
    (parse_items self html target).
Proof.
  intros Hnd. unfold parse_items.
  induction (soup_select html (item_selector target)) as [|node nodes IH];
    [constructor|].
  cbn [List.map]. constructor; [|exact IH]. split; [|split].
  - rewrite sanitize_item_keys. apply raw_item_nodup.
  - intros k sel Hin. rewrite dict_get_sanitize.
    rewrite (raw_item_lookup (cfg self) node target k sel Hnd Hin).
    reflexivity.
  - intros Hsrc. rewrite dict_get_sanitize.
    rewrite (raw_item_source (cfg self) node target Hsrc). reflexivity.
Qed.

End ParseItems.

(** ** The output file and the exit status *)



Section Output.

Context {url_lib : UrlParse} {robots_lib : RobotsLib} {soup_lib : SoupLib}.
Variable w : World.













Section Writing.

Variable os : OS.
Variable st0 : State.




End Writing.




End Output.

Section ExitStatus.

Context {url_lib : UrlParse} {robots_lib : RobotsLib} {soup_lib : SoupLib}.
Variable w : World.






End ExitStatus.

(** An output path that is a directory: the program ends with the
    exception of [open], before the query is looked at and before
    anything is requested. *)
Example main_output_is_a_directory :
  let '(o, st', file) :=
    @main simple_url simple_robots simple_soup serving plain_files
      into_directory entered in
  o = Raise OSError /\ file = None /\ trace st' = [].
Proof. vm_compute. repeat split. Qed.

(** ** The policy cache under interleaving *)

Section Interleaving.

Context {url_lib : UrlParse} {robots_lib : RobotsLib}.
Variable w : World.







Lemma run_to_completion (rest : list nat) (done pend : list Task) (url ua : str)
    (st : State) :
  exists b st',
    allowed w url ua st = (Ret b, st')
    /\ run_schedule w (length done :: length done :: rest)
         (done ++ Pending url ua :: pend) st
       = run_schedule w rest ((done ++ [Finished b]) ++ pend) st'.
Proof.
  pose proof (allowed_as_steps w url ua st) as H.
  cbn [run_schedule]. rewrite list_lookup_middle by reflexivity.
  destruct (step w (Pending url ua) st) as [t1 st1].
  rewrite insert_app_r_alt by lia. rewrite Nat.sub_diag.
  change (<[0%nat := t1]> (Pending url ua :: pend)) with (t1 :: pend).
  rewrite list_lookup_middle by reflexivity.
  destruct (step w t1 st1) as [t2 st2]. destruct H as (b & -> & E).
  exists b, st2. split; [exact E|].
  rewrite insert_app_r_alt by lia. rewrite Nat.sub_diag.
  change (<[0%nat := Finished b]> (t1 :: pend)) with (Finished b :: pend).
  rewrite <- app_assoc. reflexivity.
Qed.

Lemma in_turn_from (calls : list (str * str)) (done : list Task) (st : State) :
  exists bs st',
    allowed_in_turn w calls st = (Ret bs, st')
    /\ run_schedule w (in_turn (length done) (length calls))
         (done ++ calls_pending calls) st
       = (done ++ List.map Finished bs, st').
Proof.
  revert done st. induction calls as [|[url ua] calls IH]; intros done st.
  - exists [], st. split; [reflexivity|]. reflexivity.
  - unfold in_turn. cbn [length seq flat_map calls_pending List.map fst snd app].
    destruct (run_to_completion
                (in_turn (S (length done)) (length calls))
                done (calls_pending calls) url ua st) as (b & st1 & Ea & Er).
    destruct (IH (done ++ [Finished b]) st1) as (bs & st2 & Ei & Es).
    exists (b :: bs), st2. split.
    + cbn [allowed_in_turn]. unfold bind at 1. rewrite Ea.
      unfold bind at 1. rewrite Ei. reflexivity.
    + unfold in_turn in Er. fold (calls_pending calls). rewrite Er.
      rewrite length_app, Nat.add_comm in Es. cbn [length Nat.add] in Es.
      unfold in_turn in Es. rewrite Es, <- app_assoc. reflexivity.
Qed.

(** X23.  The event loop that resumes each caller to its end before it
    starts the next one is the sequential program: the tasks finish
    with the answers [allowed] gives when called in turn, in the same
    final state (cache, counters and trace). *)
Theorem callers_in_turn_are_sequential (calls : list (str * str)) (st : State) :
  exists bs st',
    allowed_in_turn w calls st = (Ret bs, st')
    /\ run_schedule w (in_turn 0 (length calls)) (calls_pending calls) st
       = (List.map Finished bs, st').
Proof. exact (in_turn_from calls [] st). Qed.

End Interleaving.

(** ** The properties at concrete inputs *)




Lemma fetch_blocks_without_slot_witness :
  fst (@fetch simple_url simple_robots serving
         {| cfg := two_retries; targets := DEFAULT_TARGETS |} search_url saturated)
  = Hang
  /\ page_gets
       (trace (snd (@fetch simple_url simple_robots serving
                      {| cfg := two_retries; targets := DEFAULT_TARGETS |}
                      search_url saturated)))
     = page_gets (trace saturated).
Proof.
  apply (@fetch_blocks_without_slot simple_url simple_robots serving
           {| cfg := two_retries; targets := DEFAULT_TARGETS |}
           search_url DEFAULT_UA saturated).
  - reflexivity.
  - simpl. lia.
  - simpl. lia.
  - left. reflexivity.
Defined.

Lemma search_stops_at_bad_template_witness :
  @search simple_url simple_robots simple_soup serving
    (with_targets {| cfg := defaults; targets := [] |}
                  ([people_search] ++ fixed_page :: [people_search]))
    (Some (py "Ada")) entered
  = (Raise ValueError,
     snd (@search simple_url simple_robots simple_soup serving
            (with_targets {| cfg := defaults; targets := [] |} [people_search])
            (Some (py "Ada")) entered)).
Proof.
  apply (@search_stops_at_bad_template simple_url simple_robots simple_soup
           serving {| cfg := defaults; targets := [] |}
           [people_search] [people_search] fixed_page (Some (py "Ada")) entered).
  - intros H. apply contains_spec in H. vm_compute in H. discriminate.
  - assert (H : fst (@search simple_url simple_robots simple_soup serving
                       (with_targets {| cfg := defaults; targets := [] |}
                                     [people_search])
                       (Some (py "Ada")) entered) = Ret tt)
      by (vm_compute; reflexivity).
    rewrite <- H. apply surjective_pairing.
Defined.

Lemma parse_items_of_distinct_fields_witness :
  @parse_items simple_soup
    {| cfg := defaults; targets := DEFAULT_TARGETS |} results_page people_search
  = List.map
      (fun node =>
         (py "source", csv_safe (name people_search))
         :: List.map
              (fun f => (fst f,
                         csv_safe (@field_value simple_soup defaults node (snd f))))
              (fields people_search))
      (@soup_select simple_soup results_page (item_selector people_search)).
Proof.
  apply (@parse_items_of_distinct_fields simple_soup
           {| cfg := defaults; targets := DEFAULT_TARGETS |}
           results_page people_search).
  apply (bool_decide_unpack _). vm_compute. exact I.
Defined.

Lemma parse_items_field_lookup_witness :
  Forall2
    (fun node item =>
       NoDup (List.map fst item)
       /\ (forall k sel,
             In (k, sel) (fields labelled) ->
             dict_get k item
             = csv_safe (@field_value simple_soup defaults node sel))
       /\ (~ In (py "source") (List.map fst (fields labelled)) ->
           dict_get (py "source") item = csv_safe (name labelled)))
    (@soup_select simple_soup results_page (item_selector labelled))
    (@parse_items simple_soup {| cfg := defaults; targets := [labelled] |}
       results_page labelled).
Proof.
  apply (@parse_items_field_lookup simple_soup
           {| cfg := defaults; targets := [labelled] |} results_page labelled).
  apply (bool_decide_unpack _). vm_compute. exact I.
Defined.
